(** * depthimage_to_laserscan: the templated [convert] of DepthImageToLaserScan.h

    A shallow embedding of
    [depthimage_to_laserscan::DepthImageToLaserScan::convert<T>]
    (include/depthimage_to_laserscan/DepthImageToLaserScan.h, lines 186-231)
    and the properties of it that the design document states.

    Numbers are modelled as the code has them: [int] values as [Z],
    [float] and [double] values as IEEE-754 binary32 and binary64 numbers
    ([spec_float] with the operations of [SpecFloat], rounding to nearest
    even), with every implicit conversion of the C++ expressions written
    out.  The mutable [scan_msg->ranges] vector and a log of the processed
    pixels are threaded through a small state-and-fault monad; an access
    outside a buffer, a float-to-int conversion with no defined result, an
    [int] sum or product that is not an [int] and a row pointer moved
    outside the image data are undefined behaviour in C++ and stop the
    model with a fault. *)

From Stdlib Require Import ZArith Bool Lia.
From Stdlib Require Import Floats.SpecFloat.
From stdpp Require Import base option list list_numbers.

Local Open Scope Z_scope.

(** ** IEEE-754 formats *)

Section Format.
Variables prec emax : Z.

(** Conversion of an integer: exact when representable, rounded
    otherwise. *)
Definition fmt_of_Z (z : Z) : spec_float :=
  binary_normalize prec emax z 0 false.

(** Conversion of a number of another format. *)
Definition fmt_round (x : spec_float) : spec_float :=
  match x with
  | S754_finite s m e => binary_round prec emax s m e
  | _ => x
  end.
End Format.

Module F32.
Definition prec := 24.
Definition emax := 128.
Definition add := SFadd prec emax.
Definition sub := SFsub prec emax.
Definition mul := SFmul prec emax.
Definition div := SFdiv prec emax.
Definition of_Z := fmt_of_Z prec emax.
Definition round := fmt_round prec emax.
End F32.

Module F64.
Definition prec := 53.
Definition emax := 1024.
Definition add := SFadd prec emax.
Definition sub := SFsub prec emax.
Definition mul := SFmul prec emax.
Definition div := SFdiv prec emax.
Definition of_Z := fmt_of_Z prec emax.
Definition round := fmt_round prec emax.
End F64.

(** [float] and [double] of the source. *)
Definition float := spec_float.
Definition double := spec_float.

(** [(double) f] and [(float) d]. *)
Definition to_double (f : float) : double := F64.round f.
Definition to_float (d : double) : float := F32.round d.

Definition is_zero (x : spec_float) : bool :=
  match x with S754_zero _ => true | _ => false end.

(** [std::isfinite]. *)
Definition isfinite (x : spec_float) : bool :=
  match x with S754_zero _ | S754_finite _ _ _ => true | _ => false end.

Definition sign_bit (x : spec_float) : bool :=
  match x with
  | S754_zero s | S754_infinity s | S754_finite s _ _ => s
  | S754_nan => false
  end.

(** The integer part of a number (toward zero) and the largest integer
    not above it; neither exists for NaN and the infinities. *)
Definition trunc (x : spec_float) : option Z :=
  match x with
  | S754_zero _ => Some 0
  | S754_finite s m e => Some (cond_Zopp s (Z.shiftl (Zpos m) e))
  | _ => None
  end.

Definition floor (x : spec_float) : option Z :=
  match x with
  | S754_zero _ => Some 0
  | S754_finite s m e => Some (Z.shiftl (cond_Zopp s (Zpos m)) e)
  | _ => None
  end.

Definition INT_MIN : Z := - 2 ^ 31.
Definition INT_MAX : Z := 2 ^ 31 - 1.

(** [(int) x] for a floating-point [x]: the value truncated toward zero;
    undefined ([None]) when that is not an [int]. *)
Definition to_int (x : spec_float) : option Z :=
  z ← trunc x;
  if (INT_MIN <=? z) && (z <=? INT_MAX) then Some z else None.

(** [(int) w] for a [uint32_t] value [w], that is [0 <= w < 2^32]: [w]
    when it is an [int] and [w - 2^32], a negative number, otherwise. *)
Definition int_of_uint32 (w : Z) : Z :=
  if w <=? INT_MAX then w else w - 2 ^ 32.

(** ** Pixel encodings

    [convert<T>] is instantiated at [uint16_t] (depth in millimetres) and
    at [float] (depth in metres). *)

Inductive encoding := TYPE_16UC1 | TYPE_32FC1.

(** The sample type [T]; a [uint16_t] sample is a [Z] in [0, 65535]. *)
Definition T (enc : encoding) : Type :=
  match enc with TYPE_16UC1 => Z | TYPE_32FC1 => float end.

Definition sizeof (enc : encoding) : Z :=
  match enc with TYPE_16UC1 => 2 | TYPE_32FC1 => 4 end.

(** [T(1)]. *)
Definition T_one (enc : encoding) : T enc :=
  match enc with TYPE_16UC1 => 1 | TYPE_32FC1 => F32.of_Z 1 end.

(** The conversions C++ inserts: [double r = depth] (line 210) and the
    operand [depth] of a [float] product (line 216). *)
Definition as_double (enc : encoding) : T enc -> double :=
  match enc with
  | TYPE_16UC1 => fun d => F64.of_Z d
  | TYPE_32FC1 => fun d => to_double d
  end.

Definition as_float (enc : encoding) : T enc -> float :=
  match enc with
  | TYPE_16UC1 => fun d => F32.of_Z d
  | TYPE_32FC1 => fun d => d
  end.

Module DepthTraits.

(** Modelled from the spec: depth_traits.h, which defines
    [DepthTraits<T>::toMeters], is not part of the sources.  Section 4.1:
    "for integer-millimeter encoding, multiply by 0.001; for float-meter
    encoding, identity", with a [double] result. *)
Definition toMeters (enc : encoding) : T enc -> double :=
  match enc with
  | TYPE_16UC1 =>
      fun d => F64.mul (F64.of_Z d) (F64.div (F64.of_Z 1) (F64.of_Z 1000))
  | TYPE_32FC1 => fun d => to_double d
  end.

(** Modelled from the spec: depth_traits.h, which defines
    [DepthTraits<T>::valid], is not part of the sources.  Section 4.1:
    "integer encoding treats zero as invalid (no return); float encoding
    treats NaN and +-Infinity as invalid, everything else valid". *)
Definition valid (enc : encoding) : T enc -> bool :=
  match enc with
  | TYPE_16UC1 => fun d => negb (d =? 0)
  | TYPE_32FC1 => fun d => isfinite d
  end.

End DepthTraits.

(** ** Messages and the converter object *)

(** [sensor_msgs::Image], its byte vector [data] seen through the cast of
    line 199 as an array of [T]; [width], [height] and [step] are
    [uint32_t] fields. *)
Record Image (enc : encoding) := {
  width : Z;
  height : Z;
  step : Z;
  data : list (T enc);
}.
Arguments width {enc} _.
Arguments height {enc} _.
Arguments step {enc} _.
Arguments data {enc} _.

(** What [convert] asks of [image_geometry::PinholeCameraModel]. *)
Record PinholeCameraModel := { cx : double; cy : double; fx : double }.

(** [sensor_msgs::LaserScan] without its header, time and intensity
    fields. *)
Record LaserScan := {
  angle_min : float;
  angle_max : float;
  angle_increment : float;
  range_min : float;
  range_max : float;
  ranges : list float;
}.

(** The data members of [DepthImageToLaserScan] (lines 267-270). *)
Record DepthImageToLaserScan := {
  scan_time_ : float;
  range_min_ : float;
  range_max_ : float;
  scan_height_ : Z;
}.

(** ** The reduction policy *)

(** Modelled from the spec: the acceptance window of [use_point], whose
    body is not part of the sources.  Section 4.2: "A candidate strictly
    between [range_min] and [range_max] is in range." *)
Definition in_range (x range_min range_max : float) : bool :=
  SFltb range_min x && SFltb x range_max.

(** Modelled from the spec: [use_point] is declared at line 163 and its
    body (DepthImageToLaserScan.cpp) is not part of the sources.
    Section 4.2: the shortest in-range candidate seen so far is kept; a
    candidate that is not in range never overwrites a value that is in
    range; an in-range candidate replaces a stored value that is not in
    range whatever its magnitude.  Section 8: a bin that receives only
    out-of-range or invalid candidates keeps its initial value, so a
    candidate that is not in range is never used. *)
Definition use_point (new_value old_value range_min range_max : float) : bool :=
  in_range new_value range_min range_max
  && (negb (in_range old_value range_min range_max)
      || SFltb new_value old_value).

(** [v[i]] for a vector and an [int] index: [None] outside the vector. *)
Definition at_index {A} (l : list A) (i : Z) : option A :=
  if 0 <=? i then l !! Z.to_nat i else None.

(** What lines 226-228 do to the vector for a candidate [c.2] mapped to
    the bin [c.1] (inside the vector). *)
Definition store (range_min range_max : float)
    (rs : list float) (c : Z * float) : list float :=
  match at_index rs c.1 with
  | Some old =>
      if use_point c.2 old range_min range_max
      then <[Z.to_nat c.1 := c.2]> rs
      else rs
  | None => rs
  end.

(** The candidates [cs] offered one after the other. *)
Definition process (range_min range_max : float)
    (cs : list (Z * float)) (rs : list float) : list float :=
  foldl (store range_min range_max) rs cs.

(** The value a bin holds after one more candidate [r], and after the
    candidates [rs], from the value [old]. *)
Definition keep (range_min range_max : float) (old r : float) : float :=
  if use_point r old range_min range_max then r else old.

Definition bin_value (range_min range_max : float)
    (old : float) (rs : list float) : float :=
  foldl (keep range_min range_max) old rs.

(** The candidates of [cs] that are mapped to the bin [i]. *)
Definition candidates_of (i : Z) (cs : list (Z * float)) : list float :=
  (filter (λ c, c.1 = i) cs).*2.

(** The order of stored ranges in which the no-reading value [sentinel] is
    the largest: [b] holds no reading, or [a] holds one and [a <= b]. *)
Definition range_le (sentinel a b : float) : Prop :=
  b = sentinel ∨ (a ≠ sentinel ∧ SFleb a b = true).

(** ** Execution state and faults *)

(** What the run of [convert] has done for one pixel: the pixel, the bin
    it was mapped to, the candidate handed to [use_point] and whether the
    candidate was written. *)
Record pixel_event := {
  ev_v : Z;
  ev_u : Z;
  ev_index : Z;
  ev_r : float;
  ev_used : bool;
}.

(** The vector [scan_msg->ranges], the only thing [convert] writes, and
    the log of the pixels processed so far, oldest first. *)
Record scan_state := {
  st_ranges : list float;
  st_log : list pixel_event;
}.

(** Undefined behaviour of the C++ code. *)
Inductive fault :=
| DepthOutOfBounds (pos : Z)      (* [depth_row[u]] outside the image data *)
| RangesOutOfBounds (index : Z)   (* [scan_msg->ranges[index]] outside the vector *)
| FloatToIntUndefined             (* [(int) x] for an [x] with no [int] value *)
| IntOverflow                     (* an [int] sum or product that is no [int] *)
| PointerOutOfBounds (pos : Z).   (* [depth_row] moved outside the image data *)

Inductive result (A : Type) :=
| Ok (a : A)
| Ub (f : fault).
Arguments Ok {A} _.
Arguments Ub {A} _.

Definition M (A : Type) : Type := scan_state -> result A * scan_state.

#[global] Instance M_ret : MRet M := fun A a st => (Ok a, st).
#[global] Instance M_bind : MBind M := fun A B f m st =>
  match m st with
  | (Ok a, st') => f a st'
  | (Ub e, st') => (Ub e, st')
  end.

Definition cast_int (x : spec_float) : M Z := fun st =>
  match to_int x with
  | Some z => (Ok z, st)
  | None => (Ub FloatToIntUndefined, st)
  end.

(** The [int] result [z] of a sum or a product of [int]s. *)
Definition int_arith (z : Z) : M Z := fun st =>
  if (INT_MIN <=? z) && (z <=? INT_MAX) then (Ok z, st)
  else (Ub IntOverflow, st).

(** The row pointer moved to the position [pos] of the image data: it may
    point to a sample or just past the last one. *)
Definition move_pointer {enc} (data : list (T enc)) (pos : Z) : M Z :=
  fun st =>
    if (0 <=? pos) && (pos <=? Z.of_nat (length data)) then (Ok pos, st)
    else (Ub (PointerOutOfBounds pos), st).

Definition load_depth {enc} (data : list (T enc)) (pos : Z) : M (T enc) :=
  fun st =>
    match at_index data pos with
    | Some d => (Ok d, st)
    | None => (Ub (DepthOutOfBounds pos), st)
    end.

Definition load_range (index : Z) : M float := fun st =>
  match at_index (st_ranges st) index with
  | Some r => (Ok r, st)
  | None => (Ub (RangesOutOfBounds index), st)
  end.

Definition store_range (index : Z) (r : float) : M unit := fun st =>
  match at_index (st_ranges st) index with
  | Some _ =>
      (Ok tt, {| st_ranges := <[Z.to_nat index := r]> (st_ranges st);
                 st_log := st_log st |})
  | None => (Ub (RangesOutOfBounds index), st)
  end.

Definition record_pixel (ev : pixel_event) : M unit := fun st =>
  (Ok tt, {| st_ranges := st_ranges st; st_log := st_log st ++ [ev] |}).

(** ** [convert] *)

Section Convert.

(** [atan2] and [hypot] of the C library. *)
Variables atan2 hypot : double -> double -> double.

Variable enc : encoding.
Variable self : DepthImageToLaserScan.
Variable depth_msg : Image enc.
Variable cam_model : PinholeCameraModel.
Variable scan_msg : LaserScan.
Variable scan_height : Z.

(* lines 191-192 *)
Definition center_x : float := to_float (cx cam_model).
Definition center_y : float := to_float (cy cam_model).

(* lines 196-197 *)
Definition unit_scaling : double := DepthTraits.toMeters enc (T_one enc).
Definition constant_x : float :=
  to_float (F64.div unit_scaling (fx cam_model)).

(* line 200 *)
Definition row_step : Z := Z.quot (step depth_msg) (sizeof enc).

(* line 206: [(int)depth_msg->width] *)
Definition int_width : Z := int_of_uint32 (width depth_msg).

(* line 202, before the cast *)
Definition offset_float : float :=
  F32.sub center_y (F32.of_Z (Z.quot scan_height 2)).

(* line 211 *)
Definition th (u : Z) : double :=
  SFopp (atan2 (F64.mul (to_double (F32.sub (F32.of_Z u) center_x))
                        (to_double constant_x))
               unit_scaling).

(* line 212, before the conversion to [int] *)
Definition index_float (u : Z) : double :=
  F64.div (F64.sub (th u) (to_double (angle_min scan_msg)))
          (to_double (angle_increment scan_msg)).

(* line 216 *)
Definition lateral (u : Z) (depth : T enc) : double :=
  to_double (F32.mul (F32.mul (F32.sub (F32.of_Z u) center_x)
                              (as_float enc depth))
                     constant_x).

(* lines 210 and 214-222 *)
Definition candidate (u : Z) (depth : T enc) : double :=
  let r := as_double enc depth in
  if DepthTraits.valid enc depth then
    let x := lateral u depth in
    let z := DepthTraits.toMeters enc depth in
    hypot x z
  else r.

(* lines 208-228: the body of the inner loop, [depth_row] being the
   position of the row pointer in the image data *)
Definition pixel (v u depth_row : Z) : M unit :=
  depth ← load_depth (data depth_msg) (depth_row + u);
  let r := candidate u depth in
  index ← cast_int (index_float u);
  old ← load_range index;
  if use_point (to_float r) old (range_min scan_msg) (range_max scan_msg)
  then
    store_range index (to_float r);;
    record_pixel {| ev_v := v; ev_u := u; ev_index := index;
                    ev_r := to_float r; ev_used := true |}
  else
    record_pixel {| ev_v := v; ev_u := u; ev_index := index;
                    ev_r := to_float r; ev_used := false |}.

(* line 206: [n] iterations of the inner loop are left, from column [u] *)
Fixpoint columns (n : nat) (v u depth_row : Z) : M unit :=
  match n with
  | O => mret tt
  | S n' => pixel v u depth_row;; columns n' v (u + 1) depth_row
  end.

(* line 205: [n] iterations of the outer loop are left, from row [v];
   each ends with [depth_row += row_step] *)
Fixpoint rows (n : nat) (v depth_row : Z) : M unit :=
  match n with
  | O => mret tt
  | S n' =>
      columns (Z.to_nat (int_width - 0)) v 0 depth_row;;
      depth_row' ← move_pointer (data depth_msg) (depth_row + row_step);
      rows n' (v + 1) depth_row'
  end.

(* lines 203-230, from the first row [offset].  The row pointer is a
   position in the image data, 0 for the address [&data[0]] of line 199.
   The product [offset*row_step] of line 203 and the sum
   [offset+scan_height_] of the loop condition of line 205 are [int]
   operations; the condition has the same operands at every test and is
   first evaluated before any iteration *)
Definition loop_nest (offset : Z) : M unit :=
  skip ← int_arith (offset * row_step);
  depth_row ← move_pointer (data depth_msg) (0 + skip);
  bound ← int_arith (offset + scan_height_ self);
  rows (Z.to_nat (bound - offset)) offset depth_row.

(* lines 202-230 *)
Definition convert_body : M unit :=
  offset ← cast_int offset_float;
  loop_nest offset.

(** The pixels of the window in the order of the loop nest, from the
    row [offset], and the loop body run over a list of pixels. *)
Definition window_pixels (offset : Z) : list (Z * Z) :=
  v ← seqZ offset (scan_height_ self);
  (λ u, (v, u)) <$> seqZ 0 (width depth_msg).

(** The pixels that the loop nest visits: the columns are counted by
    [(int)depth_msg->width]. *)
Definition loop_pixels (offset : Z) : list (Z * Z) :=
  v ← seqZ offset (scan_height_ self);
  (λ u, (v, u)) <$> seqZ 0 int_width.

Fixpoint run (l : list (Z * Z)) : M unit :=
  match l with
  | [] => mret tt
  | p :: l' => pixel p.1 p.2 (p.1 * row_step);; run l'
  end.

(** The bin and the candidate of a logged pixel, as [process] takes
    them. *)
Definition ev_cand (e : pixel_event) : Z * float := (ev_index e, ev_r e).
Definition ev_pixel (e : pixel_event) : Z * Z := (ev_v e, ev_u e).

(** A pixel that the loop body can process with [n] bins: its sample
    lies in the image data, its bin is an [int] and lies in the vector. *)
Definition pixel_defined (n : nat) (p : Z * Z) : Prop :=
  ∃ d i, at_index (data depth_msg) (p.1 * row_step + p.2) = Some d
       ∧ to_int (index_float p.2) = Some i
       ∧ 0 <= i < Z.of_nat n.

(** A log entry that tells what the loop body did, with [n] bins. *)
Definition event_ok (n : nat) (e : pixel_event) : Prop :=
  ∃ d, at_index (data depth_msg) (ev_v e * row_step + ev_u e) = Some d
     ∧ to_int (index_float (ev_u e)) = Some (ev_index e)
     ∧ ev_r e = to_float (candidate (ev_u e) d)
     ∧ 0 <= ev_index e < Z.of_nat n.

(** The image data hold [height] rows of [row_step] samples, the first
    [width] of each being its pixels; [step] is a [uint32_t], and the
    rows and their samples can be counted by an [int], as lines 203 and
    205 count them. *)
Definition image_well_formed : Prop :=
  0 <= width depth_msg <= row_step
  ∧ height depth_msg * row_step <= Z.of_nat (length (data depth_msg))
  ∧ step depth_msg < 2 ^ 32
  ∧ height depth_msg <= INT_MAX
  ∧ height depth_msg * row_step <= INT_MAX.

(** The window precondition: the rows from [offset] lie in the image,
    [offset + scan_height_] being an [int]. *)
Definition window_in_image (offset : Z) : Prop :=
  0 <= offset <= height depth_msg
  ∧ INT_MIN <= offset + scan_height_ self <= height depth_msg.

(** The arithmetic of the loop nest is defined from the row [offset]:
    [offset*row_step] and [offset+scan_height_] are [int]s, and the row
    pointer stays in the image data or just past them when it is set
    (line 203) and after each row (line 205). *)
Definition rows_defined (offset : Z) : Prop :=
  INT_MIN <= offset * row_step <= INT_MAX
  ∧ 0 <= offset * row_step <= Z.of_nat (length (data depth_msg))
  ∧ INT_MIN <= offset + scan_height_ self <= INT_MAX
  ∧ ∀ v, offset <= v < offset + scan_height_ self ->
      0 <= (v + 1) * row_step <= Z.of_nat (length (data depth_msg)).

(** Every column of the image has a bin in [scan_msg->ranges]. *)
Definition bins_in_scan : Prop :=
  ∀ u, 0 <= u < width depth_msg ->
    ∃ i, to_int (index_float u) = Some i
       ∧ 0 <= i < Z.of_nat (length (ranges scan_msg)).

Definition initial_state : scan_state :=
  {| st_ranges := ranges scan_msg; st_log := [] |}.

Definition convert : result unit * scan_state :=
  convert_body initial_state.

End Convert.

(** ** The values of [atan2] and [hypot] that the C standard fixes

    Annex F of the C standard gives [atan2(+-0, x) = +-0] for [x > 0] and
    [hypot(+-0, y) = hypot(y, +-0) = fabs(y)].  The two functions below
    have these values and are NaN elsewhere; they serve to run [convert]
    on images whose columns all lie on the optical axis. *)
Module AnnexF.

Definition atan2 (y x : double) : double :=
  match y, x with
  | S754_zero s, (S754_finite false _ _ | S754_infinity false) => S754_zero s
  | _, _ => S754_nan
  end.

Definition hypot (x y : double) : double :=
  match x, y with
  | S754_zero _, _ => SFabs y
  | _, S754_zero _ => SFabs x
  | _, _ => S754_nan
  end.

End AnnexF.

(** Decimal constants for the examples: [dec n k] is the [double] nearest
    to [n / 10^k]. *)
Definition dec (n : Z) (k : Z) : double :=
  F64.div (F64.of_Z n) (F64.of_Z (10 ^ k)).

Definition pinf : float := S754_infinity false.

(** ** The formulas of the design document

    Definitions that follow the words of the document, to be compared with
    what the code computes. *)
Module Spec.

(** The nearest integer, halves away from zero. *)
Definition round (x : spec_float) : option Z :=
  match x with
  | S754_zero _ => Some 0
  | S754_finite s m e =>
      Some (cond_Zopp s
              (if 0 <=? e then Z.shiftl (Zpos m) e
               else Z.shiftl (Zpos m + 2 ^ (- e - 1)) e))
  | _ => None
  end.

(** Section 4.2, step 2:
    "offset = round(principal_point_y - scan_height/2)". *)
Definition offset (cam_model : PinholeCameraModel) (scan_height : Z)
  : option Z :=
  round (F64.sub (cy cam_model)
                 (F64.div (F64.of_Z scan_height) (F64.of_Z 2))).

(** Section 4.2, step 2: "iterate rows v from offset to
    offset + scan_height - 1". *)
Definition rows (offset scan_height : Z) : list Z := seqZ offset scan_height.

(** Section 4.2, step 3c:
    "index = floor((theta - angle_min) / angle_increment)". *)
Definition index (theta : double) (scan_msg : LaserScan) : option Z :=
  floor (F64.div (F64.sub theta (to_double (angle_min scan_msg)))
                 (to_double (angle_increment scan_msg))).

End Spec.

(** ** Example inputs

    Images of one column that lies on the optical axis ([cx = 0]), so that
    the values of [AnnexF] are all that a run needs. *)
Module Examples.

Definition converter (h : Z) : DepthImageToLaserScan :=
  {| scan_time_ := to_float (dec 33 3);
     range_min_ := to_float (dec 1 1);
     range_max_ := to_float (dec 10 0);
     scan_height_ := h |}.

(** One [float] sample (metres) per row. *)
Definition column32 (samples : list float) : Image TYPE_32FC1 :=
  Build_Image TYPE_32FC1 1 (Z.of_nat (length samples)) 4 samples.

(** One [uint16_t] sample (millimetres) per row. *)
Definition column16 (samples : list Z) : Image TYPE_16UC1 :=
  Build_Image TYPE_16UC1 1 (Z.of_nat (length samples)) 2 samples.

(** A camera with the principal point [(0, cy)] and focal length 1. *)
Definition camera (cy : double) : PinholeCameraModel :=
  {| cx := dec 0 0; cy := cy; fx := dec 1 0 |}.

(** A scan of [n] bins of one radian from [amin], all holding the
    no-reading value, with the acceptance window [(rmin, 10)] metres. *)
Definition scan (amin rmin : double) (n : nat) : LaserScan :=
  {| angle_min := to_float amin;
     angle_max := to_float (F64.add amin (F64.of_Z (Z.of_nat n)));
     angle_increment := to_float (dec 1 0);
     range_min := to_float rmin;
     range_max := to_float (dec 10 0);
     ranges := replicate n pinf |}.

Definition metres (n k : Z) : float := to_float (dec n k).

End Examples.

(** ** Scans and images that differ in their contents *)

(** [scan_msg] with the vector [rs] for its ranges: what a caller passes
    to convert into a scan that an earlier call has filled. *)
Definition set_ranges (scan_msg : LaserScan) (rs : list float) : LaserScan :=
  {| angle_min := angle_min scan_msg;
     angle_max := angle_max scan_msg;
     angle_increment := angle_increment scan_msg;
     range_min := range_min scan_msg;
     range_max := range_max scan_msg;
     ranges := rs |}.

(** The memory that a logged pixel touched: its sample and its bin. *)
Definition ev_access (e : pixel_event) : Z * Z * Z :=
  (ev_v e, ev_u e, ev_index e).

(** Two images of one layout: as wide, with the same step and as many
    samples. *)
Definition same_layout {enc} (a b : Image enc) : Prop :=
  width a = width b ∧ step a = step b
  ∧ length (data a) = length (data b).

(** * Properties *)

(** ** Conversions on examples *)

Example trunc_neg_half :
  to_int (dec (-5) 1) = Some 0 /\ floor (dec (-5) 1) = Some (-1).
Proof. split; vm_compute; reflexivity. Qed.

Example to_float_milli : to_double (to_float (dec 1 3)) <> dec 1 3.
Proof. vm_compute. discriminate. Qed.

(** ** The order of floating-point numbers *)

Lemma SFcompare_antisym a b c :
  SFcompare a b = Some c -> SFcompare b a = Some (CompOpp c).
Proof.
  destruct a as [sa|sa| |sa ma ea], b as [sb|sb| |sb mb eb]; simpl;
    try discriminate; intros [= <-];
    try (destruct sa; reflexivity); try (destruct sb; reflexivity);
    try (destruct sa, sb; reflexivity).
  rewrite (Z.compare_antisym ea eb).
  change (Pos.compare_cont Eq mb ma) with (Pos.compare mb ma).
  change (Pos.compare_cont Eq ma mb) with (Pos.compare ma mb).
  rewrite (Pos.compare_antisym ma mb).
  destruct sa, sb; simpl; try reflexivity;
    destruct (ea ?= eb); simpl; try reflexivity;
    destruct (ma ?= mb)%positive; reflexivity.
Qed.

Lemma SFltb_asym a b : SFltb a b = true -> SFltb b a = false.
Proof.
  unfold SFltb. destruct (SFcompare a b) as [[]|] eqn:E; try discriminate.
  intros _. rewrite (SFcompare_antisym _ _ _ E). reflexivity.
Qed.

Lemma SFltb_irrefl a : SFltb a a = false.
Proof.
  destruct (SFltb a a) eqn:E; [|reflexivity].
  pose proof (SFltb_asym _ _ E). congruence.
Qed.

Lemma SFltb_trans a b c :
  SFltb a b = true -> SFltb b c = true -> SFltb a c = true.
Proof.
  unfold SFltb.
  destruct a as [sa|sa| |sa ma ea], b as [sb|sb| |sb mb eb],
      c as [sc|sc| |sc mc ec]; simpl; try discriminate;
    try (destruct sa; try discriminate; destruct sb; try discriminate;
         destruct sc; try discriminate; reflexivity);
    try (destruct sa; try discriminate; destruct sb; discriminate);
    try (destruct sb; try discriminate; destruct sc; discriminate).
  all: change (Pos.compare_cont Eq ?x ?y) with (Pos.compare x y).
  all: destruct sa, sb, sc; try discriminate; try reflexivity.
  all: try (destruct (eb ?= ec); discriminate).
  all: try (destruct (ea ?= eb); intros; discriminate).
  all: destruct (Z.compare_spec ea eb), (Z.compare_spec eb ec);
    try discriminate; subst;
    try (rewrite Z.compare_refl);
    repeat match goal with
      | |- context [(?x ?= ?y)%Z] => destruct (Z.compare_spec x y); try lia
      end; try reflexivity; try discriminate;
    destruct (Pos.compare_spec ma mb), (Pos.compare_spec mb mc);
    try discriminate; subst; simpl;
    repeat match goal with
      | |- context [(?x ?= ?y)%positive] =>
          destruct (Pos.compare_spec x y); try lia
      end; try reflexivity; try discriminate.
Qed.

Lemma SFleb_of_not_ltb a b :
  a <> S754_nan -> b <> S754_nan -> SFltb b a = false -> SFleb a b = true.
Proof.
  intros Ha Hb. unfold SFltb, SFleb.
  destruct (SFcompare b a) as [c|] eqn:E.
  - rewrite (SFcompare_antisym _ _ _ E). destruct c; simpl; congruence.
  - destruct a, b; simpl in E; congruence.
Qed.

(** ** The acceptance window and the reduction policy *)

Section Policy.
Variables range_min range_max : float.

#[local] Abbreviation inr x := (in_range x range_min range_max).

Lemma in_range_not_nan x : inr x = true -> x <> S754_nan.
Proof.
  unfold in_range. intros H ->.
  destruct range_min; simpl in H; discriminate.
Qed.

Lemma in_range_isfinite x : inr x = true -> isfinite x = true.
Proof.
  unfold in_range, SFltb. intros H.
  destruct x as [s|s| |s m e]; try reflexivity; exfalso.
  - destruct s.
    + destruct range_min as [| [] | |]; simpl in H; discriminate.
    + destruct range_max as [| [] | |], range_min as [| [] | |];
        simpl in H; discriminate.
  - destruct range_min; simpl in H; discriminate.
Qed.

Lemma not_finite_not_in_range x : isfinite x = false -> inr x = false.
Proof.
  intros H. destruct (inr x) eqn:E; [|reflexivity].
  apply in_range_isfinite in E. congruence.
Qed.

Lemma use_point_in_range r old :
  use_point r old range_min range_max = true -> inr r = true.
Proof. unfold use_point. intros H. apply andb_prop in H. tauto. Qed.

Lemma keep_cases old r :
  (keep range_min range_max old r = r /\ inr r = true
   /\ (inr old = false \/ SFltb r old = true))
  \/ (keep range_min range_max old r = old
      /\ (inr r = false \/ (inr old = true /\ SFltb r old = false))).
Proof.
  unfold keep, use_point.
  destruct (inr r), (inr old), (SFltb r old); simpl; auto.
Qed.

(** The bin keeps holding a reading once it holds one. *)
Lemma bin_value_in_range rs : forall old,
  inr old = true -> inr (bin_value range_min range_max old rs) = true.
Proof.
  induction rs as [|r rs IH]; intros old Hold; [exact Hold|].
  simpl. apply IH. destruct (keep_cases old r) as [(-> & ? & _)|(-> & _)];
    assumption.
Qed.

(** The bin holds its first value or one of the in-range candidates. *)
Lemma bin_value_origin rs : forall old,
  bin_value range_min range_max old rs = old
  \/ (bin_value range_min range_max old rs ∈ rs
      /\ inr (bin_value range_min range_max old rs) = true).
Proof.
  induction rs as [|r rs IH]; intros old; [left; reflexivity|].
  simpl. destruct (IH (keep range_min range_max old r)) as [E|[E1 E2]].
  - rewrite E. destruct (keep_cases old r) as [(-> & ? & _)|(-> & _)].
    + right. split; [left|assumption].
    + left. reflexivity.
  - right. split; [right; assumption|assumption].
Qed.

(** The value of a bin only gets shorter: a bound from below on an
    in-range value it holds stays one. *)
Lemma bin_value_below rs : forall old x,
  inr old = true -> SFltb x old = false ->
  SFltb x (bin_value range_min range_max old rs) = false.
Proof.
  induction rs as [|r rs IH]; intros old x Hold Hx; [exact Hx|].
  simpl. destruct (keep_cases old r) as [(E & Hr & Hlt)|(E & _)];
    rewrite E; [|apply IH; assumption].
  apply IH; [assumption|].
  destruct Hlt as [Hlt|Hlt]; [congruence|].
  destruct (SFltb x r) eqn:Hxr; [|reflexivity].
  rewrite (SFltb_trans _ _ _ Hxr Hlt) in Hx. discriminate.
Qed.

(** In the end the bin holds a reading that is not farther than any
    in-range candidate it was offered. *)
Lemma bin_value_least rs : forall old x,
  x ∈ rs -> inr x = true ->
  inr (bin_value range_min range_max old rs) = true
  /\ SFltb x (bin_value range_min range_max old rs) = false.
Proof.
  induction rs as [|r rs IH]; intros old x Hin Hx; [inversion Hin|].
  simpl. apply elem_of_cons in Hin as [->|Hin]; [|apply IH; assumption].
  destruct (keep_cases old r) as [(E & _)|(E & [Hr|[Hold Hlt]])];
    rewrite E; clear E.
  - split; [apply bin_value_in_range; assumption|].
    apply bin_value_below; [assumption|apply SFltb_irrefl].
  - congruence.
  - split; [apply bin_value_in_range; assumption|].
    apply bin_value_below; assumption.
Qed.

(** A bin that is offered no in-range candidate keeps its value. *)
Lemma bin_value_unchanged rs : forall old,
  (forall x, x ∈ rs -> inr x = false) ->
  bin_value range_min range_max old rs = old.
Proof.
  induction rs as [|r rs IH]; intros old H; [reflexivity|].
  simpl. destruct (keep_cases old r) as [(_ & Hr & _)|(-> & _)].
  - rewrite H in Hr by left. discriminate.
  - apply IH. intros x Hx. apply H. right. exact Hx.
Qed.

End Policy.

(** ** The vector of ranges *)

Lemma at_index_Some {A} (l : list A) i x :
  at_index l i = Some x -> 0 <= i < Z.of_nat (length l).
Proof.
  unfold at_index. destruct (Z.leb_spec 0 i) as [Hi|Hi]; [|discriminate].
  intros Hl%lookup_lt_Some. lia.
Qed.

Lemma at_index_None {A} (l : list A) i :
  at_index l i = None <-> ~ (0 <= i < Z.of_nat (length l)).
Proof.
  unfold at_index. destruct (Z.leb_spec 0 i).
  - rewrite lookup_ge_None. lia.
  - split; [lia|reflexivity].
Qed.

Lemma at_index_is_Some {A} (l : list A) i :
  0 <= i < Z.of_nat (length l) -> exists x, at_index l i = Some x.
Proof.
  intros H. destruct (at_index l i) eqn:E; [eauto|].
  apply at_index_None in E. contradiction.
Qed.

Lemma at_index_insert_eq {A} (l : list A) i x y :
  at_index l i = Some y -> at_index (<[Z.to_nat i := x]> l) i = Some x.
Proof.
  intros H. pose proof (at_index_Some _ _ _ H) as Hi.
  unfold at_index. destruct (Z.leb_spec 0 i); [|lia].
  apply list_lookup_insert_eq. lia.
Qed.

Lemma at_index_insert_ne {A} (l : list A) i j x :
  0 <= i -> i <> j -> at_index (<[Z.to_nat i := x]> l) j = at_index l j.
Proof.
  intros Hi Hne. unfold at_index. destruct (Z.leb_spec 0 j); [|reflexivity].
  apply list_lookup_insert_ne. lia.
Qed.

Section Vector.
Variables range_min range_max : float.

Lemma store_length rs c : length (store range_min range_max rs c) = length rs.
Proof.
  unfold store. destruct (at_index rs c.1); [|reflexivity].
  destruct use_point; [apply length_insert|reflexivity].
Qed.

Lemma process_length cs : forall rs,
  length (process range_min range_max cs rs) = length rs.
Proof.
  unfold process.
  induction cs as [|c cs IH]; intros rs; [reflexivity|].
  simpl. rewrite IH. apply store_length.
Qed.

Lemma store_at rs c old :
  at_index rs c.1 = Some old ->
  at_index (store range_min range_max rs c) c.1
  = Some (keep range_min range_max old c.2).
Proof.
  intros H. unfold store, keep. rewrite H.
  destruct use_point; [|exact H].
  eapply at_index_insert_eq; eassumption.
Qed.

Lemma store_other rs c i :
  c.1 <> i -> at_index (store range_min range_max rs c) i = at_index rs i.
Proof.
  intros Hne. unfold store.
  destruct (at_index rs c.1) eqn:E; [|reflexivity].
  destruct use_point; [|reflexivity].
  apply at_index_insert_ne; [|assumption].
  apply at_index_Some in E. lia.
Qed.

(** Bin by bin, the vector after the candidates [cs]. *)
Lemma process_at cs : forall rs i old,
  at_index rs i = Some old ->
  at_index (process range_min range_max cs rs) i
  = Some (bin_value range_min range_max old (candidates_of i cs)).
Proof.
  unfold process.
  induction cs as [|c cs IH]; intros rs i old H; [exact H|].
  unfold candidates_of. rewrite filter_cons. simpl.
  destruct (decide (c.1 = i)) as [<-|Hne]; simpl.
  - apply IH. apply store_at. exact H.
  - apply IH. rewrite store_other by assumption. exact H.
Qed.

End Vector.

Lemma elem_of_candidates_of i cs x : x ∈ candidates_of i cs <-> (i, x) ∈ cs.
Proof.
  unfold candidates_of. rewrite list_elem_of_fmap. split.
  - intros ([j y] & -> & [Hj Hin]%list_elem_of_filter). cbn in *. congruence.
  - intros Hin. exists (i, x). split; [reflexivity|].
    apply list_elem_of_filter. auto.
Qed.

(** ** The loop nest *)

Lemma seqZ_of_to_nat m n : seqZ m (Z.of_nat (Z.to_nat n)) = seqZ m n.
Proof. unfold seqZ. rewrite Nat2Z.id. reflexivity. Qed.

Section Execution.
Variables atan2 hypot : double -> double -> double.
Variable enc : encoding.
Variable depth_msg : Image enc.
Variable cam_model : PinholeCameraModel.
Variable scan_msg : LaserScan.

#[local] Abbreviation pixel_ :=
  (pixel atan2 hypot enc depth_msg cam_model scan_msg).
#[local] Abbreviation run_ :=
  (run atan2 hypot enc depth_msg cam_model scan_msg).
#[local] Abbreviation row_step_ := (row_step enc depth_msg).
#[local] Abbreviation bin_ := (index_float atan2 enc cam_model scan_msg).
#[local] Abbreviation cand_ := (candidate hypot enc cam_model).
#[local] Abbreviation rmin := (range_min scan_msg).
#[local] Abbreviation rmax := (range_max scan_msg).

(** The loop body, outcome by outcome. *)
Lemma pixel_spec v u depth_row st :
  pixel_ v u depth_row st =
  match at_index (data depth_msg) (depth_row + u) with
  | None => (Ub (DepthOutOfBounds (depth_row + u)), st)
  | Some d =>
      match to_int (bin_ u) with
      | None => (Ub FloatToIntUndefined, st)
      | Some i =>
          match at_index (st_ranges st) i with
          | None => (Ub (RangesOutOfBounds i), st)
          | Some old =>
              let r := to_float (cand_ u d) in
              let used := use_point r old rmin rmax in
              (Ok tt,
               {| st_ranges := store rmin rmax (st_ranges st) (i, r);
                  st_log := st_log st ++
                    [{| ev_v := v; ev_u := u; ev_index := i;
                        ev_r := r; ev_used := used |}] |})
          end
      end
  end.
Proof.
  unfold pixel, load_depth, cast_int, load_range, store_range, record_pixel,
    mbind, M_bind, store.
  destruct (at_index (data depth_msg) (depth_row + u)); [|reflexivity].
  destruct (to_int (bin_ u)) as [i|]; [|reflexivity].
  destruct (at_index (st_ranges st) i) eqn:E; [|reflexivity].
  cbn [fst snd]. rewrite E.
  destruct use_point eqn:U; cbn [st_ranges st_log]; rewrite ?E, ?U;
    reflexivity.
Qed.

Lemma run_app l1 : forall l2 st,
  run_ (l1 ++ l2) st
  = match run_ l1 st with
    | (Ok _, st') => run_ l2 st'
    | (Ub f, st') => (Ub f, st')
    end.
Proof.
  induction l1 as [|p l1 IH]; intros l2 st; [reflexivity|].
  simpl. unfold mbind, M_bind.
  destruct (pixel_ _ _ _ st) as [[[]|f] st1]; [apply IH|reflexivity].
Qed.

Lemma columns_run n : forall v u st,
  columns atan2 hypot enc depth_msg cam_model scan_msg n v u (v * row_step_) st
  = run_ ((λ u', (v, u')) <$> seqZ u (Z.of_nat n)) st.
Proof.
  induction n as [|n IH]; intros v u st; [reflexivity|].
  rewrite seqZ_cons by lia.
  replace (Z.pred (Z.of_nat (S n))) with (Z.of_nat n) by lia.
  simpl. unfold mbind, M_bind.
  destruct (pixel_ _ _ _ st) as [[[]|f] st1]; [|reflexivity].
  rewrite IH. reflexivity.
Qed.

#[local] Abbreviation data_length := (Z.of_nat (length (data depth_msg))).
#[local] Abbreviation grid v n :=
  (v' ← seqZ v (Z.of_nat n);
   (λ u, (v', u)) <$> seqZ 0 (int_width enc depth_msg)).

Lemma int_arith_spec z st :
  int_arith z st
  = if (INT_MIN <=? z) && (z <=? INT_MAX) then (Ok z, st)
    else (Ub IntOverflow, st).
Proof. reflexivity. Qed.

Lemma move_pointer_spec pos st :
  move_pointer (data depth_msg) pos st
  = if (0 <=? pos) && (pos <=? data_length) then (Ok pos, st)
    else (Ub (PointerOutOfBounds pos), st).
Proof. reflexivity. Qed.

Lemma in_bounds_true lo hi z :
  lo <= z <= hi -> (lo <=? z) && (z <=? hi) = true.
Proof. intros H. apply andb_true_iff. split; apply Z.leb_le; lia. Qed.

Lemma in_bounds_iff lo hi z :
  (lo <=? z) && (z <=? hi) = true <-> lo <= z <= hi.
Proof. rewrite andb_true_iff, !Z.leb_le. reflexivity. Qed.

(** One iteration of the outer loop. *)
Lemma rows_S n v st :
  rows atan2 hypot enc depth_msg cam_model scan_msg (S n) v (v * row_step_) st
  = match run_ ((λ u, (v, u)) <$> seqZ 0 (int_width enc depth_msg)) st with
    | (Ok _, st1) =>
        if (0 <=? (v + 1) * row_step_) && ((v + 1) * row_step_ <=? data_length)
        then rows atan2 hypot enc depth_msg cam_model scan_msg n (v + 1)
               ((v + 1) * row_step_) st1
        else (Ub (PointerOutOfBounds ((v + 1) * row_step_)), st1)
    | (Ub f, st1) => (Ub f, st1)
    end.
Proof.
  cbn [rows]. unfold mbind at 1, M_bind at 1. rewrite columns_run.
  rewrite seqZ_of_to_nat, Z.sub_0_r.
  destruct (run_ _ st) as [[[]|f] st1]; [|reflexivity].
  unfold mbind, M_bind. rewrite move_pointer_spec.
  replace (v * row_step_ + row_step_) with ((v + 1) * row_step_) by lia.
  destruct (_ && _); reflexivity.
Qed.

(** When the row pointer stays in the image data, the outer loop is the
    loop body run over the pixels of its rows. *)
Lemma rows_run n : forall v st,
  (forall v', v <= v' < v + Z.of_nat n ->
     0 <= (v' + 1) * row_step_ <= data_length) ->
  rows atan2 hypot enc depth_msg cam_model scan_msg n v (v * row_step_) st
  = run_ (grid v n) st.
Proof.
  induction n as [|n IH]; intros v st Hp; [reflexivity|].
  rewrite rows_S, (seqZ_cons v) by lia.
  replace (Z.pred (Z.of_nat (S n))) with (Z.of_nat n) by lia.
  cbn [mbind list_bind]. rewrite run_app.
  destruct (run_ _ st) as [[[]|f] st1]; [|reflexivity].
  rewrite in_bounds_true by (apply Hp; lia).
  apply IH. intros v' Hv'. apply Hp. lia.
Qed.

(** The first [k] rows of the outer loop, the row pointer staying in the
    image data after each of them. *)
Lemma rows_split k : forall m v st,
  (forall v', v <= v' < v + Z.of_nat k ->
     0 <= (v' + 1) * row_step_ <= data_length) ->
  rows atan2 hypot enc depth_msg cam_model scan_msg (k + m) v
    (v * row_step_) st
  = match run_ (grid v k) st with
    | (Ok _, st1) =>
        rows atan2 hypot enc depth_msg cam_model scan_msg m
          (v + Z.of_nat k) ((v + Z.of_nat k) * row_step_) st1
    | (Ub f, st1) => (Ub f, st1)
    end.
Proof.
  induction k as [|k IH]; intros m v st Hp.
  - cbn [Nat.add seqZ mbind list_bind run]. unfold mret, M_ret.
    replace (v + Z.of_nat 0) with v by lia. reflexivity.
  - change (S k + m)%nat with (S (k + m)).
    rewrite rows_S, (seqZ_cons v) by lia.
    replace (Z.pred (Z.of_nat (S k))) with (Z.of_nat k) by lia.
    cbn [mbind list_bind]. rewrite run_app.
    destruct (run_ _ st) as [[[]|f] st1]; [|reflexivity].
    rewrite in_bounds_true by (apply Hp; lia).
    rewrite IH by (intros v' Hv'; apply Hp; lia).
    replace (v + 1 + Z.of_nat k) with (v + Z.of_nat (S k)) by lia.
    reflexivity.
Qed.

(** Whatever its outcome, the outer loop has run the loop body over an
    initial part of the pixels of its rows; it stops on the fault of a
    pixel or of the row pointer, and completes only when the row pointer
    stays in the image data. *)
Lemma rows_inv n : forall v st o st',
  rows atan2 hypot enc depth_msg cam_model scan_msg n v (v * row_step_) st
  = (o, st') ->
  exists l o',
    l `prefix_of` grid v n
    /\ run_ l st = (o', st')
    /\ (forall f, o' = Ub f -> o = Ub f)
    /\ (o' = Ok tt ->
        o = Ok tt \/ exists pos, o = Ub (PointerOutOfBounds pos))
    /\ (o = Ok tt ->
        l = grid v n
        /\ forall v', v <= v' < v + Z.of_nat n ->
             0 <= (v' + 1) * row_step_ <= data_length).
Proof.
  induction n as [|n IH]; intros v st o st' H.
  - injection H as <- <-. exists [], (Ok tt).
    repeat split; auto; try discriminate; lia.
  - rewrite rows_S in H. rewrite (seqZ_cons v) by lia.
    replace (Z.pred (Z.of_nat (S n))) with (Z.of_nat n) by lia.
    cbn [mbind list_bind].
    set (row := (λ u, (v, u)) <$> seqZ 0 (int_width enc depth_msg)) in *.
    destruct (run_ row st) as [[[]|f] st1] eqn:Erow.
    + destruct (_ && _) eqn:Eptr in H.
      * apply IH in H as (l & o' & Hpre & Hrun & Hf & Hok & Hall).
        exists (row ++ l), o'. split; [apply prefix_app; exact Hpre|].
        split; [rewrite run_app, Erow; exact Hrun|].
        split; [exact Hf|]. split; [exact Hok|].
        intros Ho. destruct (Hall Ho) as [-> Hp]. split; [reflexivity|].
        intros v' Hv'. destruct (decide (v' = v)) as [->|Hne].
        -- apply in_bounds_iff. exact Eptr.
        -- apply Hp. lia.
      * injection H as <- <-. exists row, (Ok tt).
        split; [apply prefix_app_r; reflexivity|].
        split; [exact Erow|]. split; [discriminate|].
        split; [eauto|discriminate].
    + injection H as <- <-. exists row, (Ub f).
      split; [apply prefix_app_r; reflexivity|].
      split; [exact Erow|]. split; [auto|]. split; discriminate.
Qed.

(** [convert] is the loop nest run from the first row, once that row is
    known. *)
Lemma convert_offset self scan_height :
  convert atan2 hypot enc self depth_msg cam_model scan_msg scan_height
  = match to_int (offset_float cam_model scan_height) with
    | Some offset =>
        loop_nest atan2 hypot enc self depth_msg cam_model scan_msg offset
          (initial_state scan_msg)
    | None => (Ub FloatToIntUndefined, initial_state scan_msg)
    end.
Proof.
  unfold convert, convert_body, cast_int, mbind at 1, M_bind at 1.
  destruct (to_int _); reflexivity.
Qed.

(** The loop nest, fault by fault of its arithmetic. *)
Lemma loop_nest_spec self offset st :
  loop_nest atan2 hypot enc self depth_msg cam_model scan_msg offset st
  = if (INT_MIN <=? offset * row_step_) && (offset * row_step_ <=? INT_MAX)
    then
      if (0 <=? offset * row_step_) && (offset * row_step_ <=? data_length)
      then
        if (INT_MIN <=? offset + scan_height_ self)
           && (offset + scan_height_ self <=? INT_MAX)
        then rows atan2 hypot enc depth_msg cam_model scan_msg
               (Z.to_nat (scan_height_ self)) offset (offset * row_step_) st
        else (Ub IntOverflow, st)
      else (Ub (PointerOutOfBounds (offset * row_step_)), st)
    else (Ub IntOverflow, st).
Proof.
  unfold loop_nest, mbind, M_bind. rewrite int_arith_spec.
  destruct (_ && _); [|reflexivity].
  change (0 + offset * row_step_) with (offset * row_step_).
  rewrite move_pointer_spec. destruct (_ && _); [|reflexivity].
  rewrite int_arith_spec. destruct (_ && _); [|reflexivity].
  replace (offset + scan_height_ self - offset) with (scan_height_ self)
    by lia.
  reflexivity.
Qed.

(** When its arithmetic is defined, the loop nest is the loop body run
    over the pixels it visits. *)
Lemma loop_nest_run self offset st :
  rows_defined enc self depth_msg offset ->
  loop_nest atan2 hypot enc self depth_msg cam_model scan_msg offset st
  = run_ (loop_pixels enc self depth_msg offset) st.
Proof.
  intros (Hskip & Hptr & Hbound & Hrows). rewrite loop_nest_spec.
  rewrite !in_bounds_true by assumption.
  rewrite rows_run, seqZ_of_to_nat; [reflexivity|].
  intros v' Hv'. apply Hrows. lia.
Qed.

(** Whatever its outcome, the loop nest has run the loop body over an
    initial part of the pixels it visits. *)
Lemma loop_nest_inv self offset st o st' :
  loop_nest atan2 hypot enc self depth_msg cam_model scan_msg offset st
  = (o, st') ->
  exists l o',
    l `prefix_of` loop_pixels enc self depth_msg offset
    /\ run_ l st = (o', st')
    /\ (forall f, o' = Ub f -> o = Ub f)
    /\ (o' = Ok tt ->
        o = Ok tt \/ o = Ub IntOverflow
        \/ exists pos, o = Ub (PointerOutOfBounds pos))
    /\ (o = Ok tt ->
        l = loop_pixels enc self depth_msg offset
        /\ rows_defined enc self depth_msg offset).
Proof.
  rewrite loop_nest_spec. intros H.
  assert (Hstop : forall f, (o, st') = (Ub f, st) ->
            f = IntOverflow \/ (exists pos, f = PointerOutOfBounds pos) ->
    exists l o',
      l `prefix_of` loop_pixels enc self depth_msg offset
      /\ run_ l st = (o', st')
      /\ (forall f, o' = Ub f -> o = Ub f)
      /\ (o' = Ok tt ->
          o = Ok tt \/ o = Ub IntOverflow
          \/ exists pos, o = Ub (PointerOutOfBounds pos))
      /\ (o = Ok tt ->
          l = loop_pixels enc self depth_msg offset
          /\ rows_defined enc self depth_msg offset)).
  { intros f [= -> ->] Hf. exists [], (Ok tt).
    split; [apply prefix_nil|]. split; [reflexivity|].
    split; [discriminate|]. split; [|discriminate].
    intros _. right. destruct Hf as [->|[pos ->]]; eauto. }
  destruct (_ && _) eqn:Eskip in H; [|eapply Hstop; eauto].
  destruct (_ && _) eqn:Eptr in H; [|eapply Hstop; eauto].
  destruct (_ && _) eqn:Ebound in H; [|eapply Hstop; eauto].
  clear Hstop.
  apply rows_inv in H as (l & o' & Hpre & Hrun & Hf & Hok & Hall).
  rewrite seqZ_of_to_nat in Hpre, Hall.
  exists l, o'. split; [exact Hpre|]. split; [exact Hrun|].
  split; [exact Hf|]. split; [intros Ho; destruct (Hok Ho); auto|].
  intros Ho. destruct (Hall Ho) as [-> Hp]. split; [reflexivity|].
  apply in_bounds_iff in Eskip, Eptr, Ebound.
  repeat split; try lia; apply Hp; lia.
Qed.

#[local] Abbreviation event_ok_ :=
  (event_ok atan2 hypot enc depth_msg cam_model scan_msg).
#[local] Abbreviation pixel_defined_ :=
  (pixel_defined atan2 enc depth_msg cam_model scan_msg).

(** What a run over the pixels [l] leaves behind, whatever its outcome:
    one log entry for each pixel of an initial part of [l] (of all of [l]
    when the run completes), and the vector that the logged candidates
    produce. *)
Lemma run_log l : forall st o st',
  run_ l st = (o, st') ->
  exists evs,
    st_log st' = st_log st ++ evs
    /\ st_ranges st' = process rmin rmax (ev_cand <$> evs) (st_ranges st)
    /\ Forall (event_ok_ (length (st_ranges st))) evs
    /\ (ev_pixel <$> evs) `prefix_of` l
    /\ (o = Ok tt -> ev_pixel <$> evs = l).
Proof.
  induction l as [|[v u] l IH]; intros st o st' H.
  - injection H as <- <-. exists []. rewrite app_nil_r.
    repeat split; auto.
  - cbn [run fst snd] in H. unfold mbind, M_bind in H.
    rewrite pixel_spec in H.
    assert (Hfault : forall f, (o, st') = (Ub f, st) ->
      exists evs, st_log st' = st_log st ++ evs
        /\ st_ranges st' = process rmin rmax (ev_cand <$> evs) (st_ranges st)
        /\ Forall (event_ok_ (length (st_ranges st))) evs
        /\ (ev_pixel <$> evs) `prefix_of` ((v, u) :: l)
        /\ (o = Ok tt -> ev_pixel <$> evs = (v, u) :: l)).
    { intros f [= -> ->]. exists []. rewrite app_nil_r.
      repeat split; [constructor|apply prefix_nil|discriminate]. }
    destruct (at_index (data depth_msg) (v * row_step_ + u)) as [d|] eqn:Ed;
      [|eapply Hfault; symmetry; exact H].
    destruct (to_int (bin_ u)) as [i|] eqn:Ei;
      [|eapply Hfault; symmetry; exact H].
    destruct (at_index (st_ranges st) i) as [old|] eqn:Eo;
      [|eapply Hfault; symmetry; exact H].
    clear Hfault. cbv zeta in H.
    apply IH in H as (evs & Hlog & Hrs & Hok & Hpre & Hall).
    cbn [st_log st_ranges] in *. rewrite store_length in Hok.
    eexists (_ :: evs). repeat split.
    + rewrite Hlog, <- app_assoc. reflexivity.
    + rewrite Hrs. reflexivity.
    + constructor; [|exact Hok]. exists d. cbn.
      repeat split; try assumption; apply at_index_Some in Eo; lia.
    + cbn. apply prefix_cons. exact Hpre.
    + intros Ho. cbn. rewrite (Hall Ho). reflexivity.
Qed.

(** The fault of a run that stops is the fault of one of its pixels. *)
Lemma run_fault l : forall st f st',
  run_ l st = (Ub f, st') ->
  exists v u, (v, u) ∈ l /\
    match f with
    | DepthOutOfBounds pos =>
        pos = v * row_step_ + u /\ at_index (data depth_msg) pos = None
    | RangesOutOfBounds i =>
        to_int (bin_ u) = Some i
        /\ ~ (0 <= i < Z.of_nat (length (st_ranges st)))
    | FloatToIntUndefined => to_int (bin_ u) = None
    | IntOverflow | PointerOutOfBounds _ => False
    end.
Proof.
  induction l as [|[v u] l IH]; intros st f st' H; [discriminate|].
  cbn [run fst snd] in H. unfold mbind, M_bind in H.
  rewrite pixel_spec in H.
  destruct (at_index (data depth_msg) (v * row_step_ + u)) as [d|] eqn:Ed.
  2:{ injection H as <- <-. exists v, u. split; [left|]. auto. }
  destruct (to_int (bin_ u)) as [i|] eqn:Ei.
  2:{ injection H as <- <-. exists v, u. split; [left|]. auto. }
  destruct (at_index (st_ranges st) i) as [old|] eqn:Eo.
  2:{ injection H as <- <-. exists v, u. split; [left|].
      split; [assumption|]. apply at_index_None. assumption. }
  cbv zeta in H. apply IH in H as (v' & u' & Hin & Hf).
  cbn [st_ranges] in Hf. rewrite store_length in Hf.
  exists v', u'. split; [right; assumption|assumption].
Qed.

(** A run over pixels that can all be processed completes. *)
Lemma run_total l : forall st,
  Forall (pixel_defined_ (length (st_ranges st))) l ->
  exists st', run_ l st = (Ok tt, st').
Proof.
  induction l as [|[v u] l IH]; intros st Hl; [eexists; reflexivity|].
  apply Forall_cons in Hl as [(d & i & Hd & Hi & Hb) Hl].
  cbn [run fst snd] in *. unfold mbind, M_bind. rewrite pixel_spec, Hd, Hi.
  destruct (at_index_is_Some (st_ranges st) i Hb) as [old ->].
  cbv zeta. apply IH. cbn [st_ranges]. rewrite store_length. exact Hl.
Qed.

(** The pixels of the window. *)
Lemma elem_of_window_pixels self offset v u :
  (v, u) ∈ window_pixels enc self depth_msg offset
  <-> offset <= v < offset + scan_height_ self
      /\ 0 <= u < width depth_msg.
Proof.
  unfold window_pixels. rewrite list_elem_of_bind. split.
  - intros (v' & Hu & Hv). apply elem_of_seqZ in Hv.
    apply list_elem_of_fmap in Hu as (u' & [= -> ->] & Hu).
    apply elem_of_seqZ in Hu. lia.
  - intros [Hv Hu]. exists v. split; [|apply elem_of_seqZ; lia].
    apply list_elem_of_fmap. exists u. split; [reflexivity|].
    apply elem_of_seqZ. lia.
Qed.

Lemma length_window_pixels self offset :
  0 <= scan_height_ self -> 0 <= width depth_msg ->
  Z.of_nat (length (window_pixels enc self depth_msg offset))
  = scan_height_ self * width depth_msg.
Proof.
  intros Hh Hw. unfold window_pixels.
  assert (forall l : list Z,
    Z.of_nat (length (v ← l; (λ u, (v, u)) <$> seqZ 0 (width depth_msg)))
    = Z.of_nat (length l) * width depth_msg) as ->.
  { induction l as [|v l IH]; [reflexivity|].
    cbn [mbind list_bind]. rewrite length_app, length_fmap, length_seqZ.
    rewrite Nat2Z.inj_add, IH. cbn [length]. lia. }
  rewrite length_seqZ. lia.
Qed.

Lemma NoDup_window_pixels self offset :
  NoDup (window_pixels enc self depth_msg offset).
Proof.
  unfold window_pixels. apply NoDup_bind.
  - intros v1 v2 p _ _ (u1 & -> & _)%list_elem_of_fmap
      (u2 & [= -> _] & _)%list_elem_of_fmap. reflexivity.
  - intros v _. apply NoDup_fmap_2_strong; [|apply NoDup_seqZ].
    intros u1 u2 _ _ [= ->]. reflexivity.
  - apply NoDup_seqZ.
Qed.

(** The pixels that the loop nest visits are pixels of the window, and
    all of them when the image is well formed. *)
Lemma int_of_uint32_le w u : 0 <= u < int_of_uint32 w -> 0 <= u < w.
Proof. unfold int_of_uint32. destruct (w <=? INT_MAX); lia. Qed.

Lemma row_step_int : step depth_msg < 2 ^ 32 -> row_step_ <= INT_MAX.
Proof.
  intros Hs. unfold row_step, INT_MAX.
  assert (2 <= sizeof enc) as Hsize by (clear; destruct enc; cbn; lia).
  revert Hs Hsize. generalize (step depth_msg) (sizeof enc). intros a b Ha Hb.
  Z.to_euclidean_division_equations. nia.
Qed.

Lemma int_width_well_formed :
  image_well_formed enc depth_msg -> int_width enc depth_msg = width depth_msg.
Proof.
  intros (Hw & _ & Hs & _). pose proof (row_step_int Hs) as Hr.
  unfold int_width, int_of_uint32.
  destruct (Z.leb_spec (width depth_msg) INT_MAX); [reflexivity|lia].
Qed.

Lemma loop_pixels_well_formed self offset :
  image_well_formed enc depth_msg ->
  loop_pixels enc self depth_msg offset
  = window_pixels enc self depth_msg offset.
Proof.
  intros Himg. unfold loop_pixels, window_pixels.
  rewrite (int_width_well_formed Himg). reflexivity.
Qed.

Lemma elem_of_loop_pixels self offset v u :
  (v, u) ∈ loop_pixels enc self depth_msg offset
  <-> offset <= v < offset + scan_height_ self
      /\ 0 <= u < int_width enc depth_msg.
Proof.
  unfold loop_pixels. rewrite list_elem_of_bind. split.
  - intros (v' & Hu & Hv). apply elem_of_seqZ in Hv.
    apply list_elem_of_fmap in Hu as (u' & [= -> ->] & Hu).
    apply elem_of_seqZ in Hu. lia.
  - intros [Hv Hu]. exists v. split; [|apply elem_of_seqZ; lia].
    apply list_elem_of_fmap. exists u. split; [reflexivity|].
    apply elem_of_seqZ. lia.
Qed.

Lemma loop_pixels_in_window self offset p :
  p ∈ loop_pixels enc self depth_msg offset ->
  p ∈ window_pixels enc self depth_msg offset.
Proof.
  destruct p as [v u]. intros [Hv Hu]%elem_of_loop_pixels.
  apply elem_of_window_pixels. split; [exact Hv|].
  apply int_of_uint32_le. exact Hu.
Qed.

Lemma NoDup_loop_pixels self offset :
  NoDup (loop_pixels enc self depth_msg offset).
Proof.
  unfold loop_pixels. apply NoDup_bind.
  - intros v1 v2 p _ _ (u1 & -> & _)%list_elem_of_fmap
      (u2 & [= -> _] & _)%list_elem_of_fmap. reflexivity.
  - intros v _. apply NoDup_fmap_2_strong; [|apply NoDup_seqZ].
    intros u1 u2 _ _ [= ->]. reflexivity.
  - apply NoDup_seqZ.
Qed.

(** In a well-formed image, the arithmetic of the loop nest is defined
    for a window inside it, and the pixels of the window are samples of
    the image data. *)
Lemma window_rows_defined self offset :
  image_well_formed enc depth_msg ->
  window_in_image enc self depth_msg offset ->
  rows_defined enc self depth_msg offset.
Proof.
  intros (Hw & Hd & _ & Hh & Hn) [Ho Hb]. unfold rows_defined, INT_MIN in *.
  repeat split; try nia.
Qed.

Lemma window_samples self offset v u :
  image_well_formed enc depth_msg ->
  window_in_image enc self depth_msg offset ->
  (v, u) ∈ window_pixels enc self depth_msg offset ->
  exists d, at_index (data depth_msg) (v * row_step_ + u) = Some d.
Proof.
  intros (Hw & Hd & _) [Ho Hh] [Hv Hu]%elem_of_window_pixels.
  apply at_index_is_Some. nia.
Qed.

Lemma window_defined self offset :
  image_well_formed enc depth_msg ->
  window_in_image enc self depth_msg offset ->
  bins_in_scan atan2 enc depth_msg cam_model scan_msg ->
  Forall (pixel_defined_ (length (ranges scan_msg)))
         (window_pixels enc self depth_msg offset).
Proof.
  intros Hi Hw Hb. apply Forall_forall. intros [v u] Hin.
  destruct (window_samples _ _ _ _ Hi Hw Hin) as [d Hd].
  apply elem_of_window_pixels in Hin as [_ Hu].
  destruct (Hb u Hu) as (i & Hi' & Hr).
  exists d, i. auto.
Qed.

(** A run that completes has processed pixels that can all be
    processed. *)
Lemma run_defined l : forall st st',
  run_ l st = (Ok tt, st') ->
  Forall (pixel_defined_ (length (st_ranges st))) l.
Proof.
  induction l as [|[v u] l IH]; intros st st' H; [constructor|].
  cbn [run fst snd] in H. unfold mbind, M_bind in H.
  rewrite pixel_spec in H.
  destruct (at_index (data depth_msg) (v * row_step_ + u)) as [d|] eqn:Ed;
    [|discriminate].
  destruct (to_int (bin_ u)) as [i|] eqn:Ei; [|discriminate].
  destruct (at_index (st_ranges st) i) as [old|] eqn:Eo; [|discriminate].
  cbv zeta in H. apply IH in H. cbn [st_ranges] in H.
  rewrite store_length in H. constructor; [|exact H].
  exists d, i. cbn [fst snd]. apply at_index_Some in Eo. auto.
Qed.

(** No run changes the number of bins. *)
Lemma run_length l st :
  length (st_ranges (run_ l st).2) = length (st_ranges st).
Proof.
  destruct (run_ l st) as [o st'] eqn:E. cbn [snd].
  apply run_log in E as (evs & _ & -> & _). apply process_length.
Qed.

End Execution.

(** ** Runs of [convert] *)

Section Runs.
Variables atan2 hypot : double -> double -> double.
Variable enc : encoding.
Variable self : DepthImageToLaserScan.
Variable depth_msg : Image enc.
Variable cam_model : PinholeCameraModel.
Variable scan_msg : LaserScan.
Variable scan_height : Z.

#[local] Abbreviation convert_ :=
  (convert atan2 hypot enc self depth_msg cam_model scan_msg scan_height).
#[local] Abbreviation event_ok_ :=
  (event_ok atan2 hypot enc depth_msg cam_model scan_msg
     (length (ranges scan_msg))).

(** What any run leaves behind. *)
Lemma convert_inv o st' :
  convert_ = (o, st') ->
  st_ranges st'
  = process (range_min scan_msg) (range_max scan_msg)
      (ev_cand <$> st_log st') (ranges scan_msg)
  /\ Forall event_ok_ (st_log st')
  /\ (forall offset,
        to_int (offset_float cam_model scan_height) = Some offset ->
        (ev_pixel <$> st_log st')
          `prefix_of` loop_pixels enc self depth_msg offset)
  /\ (o = Ok tt ->
      exists offset,
        to_int (offset_float cam_model scan_height) = Some offset
        /\ rows_defined enc self depth_msg offset
        /\ ev_pixel <$> st_log st' = loop_pixels enc self depth_msg offset).
Proof.
  rewrite convert_offset.
  destruct (to_int (offset_float cam_model scan_height)) as [offset|].
  - intros (l & o' & Hl & Hrun & Hf & _ & Hok)%loop_nest_inv.
    apply run_log in Hrun as (evs & Hlog & Hrs & Hev & Hpre & Hall).
    cbn [initial_state st_log st_ranges app] in *. subst evs.
    repeat split; try assumption.
    + intros ? [= <-]. etransitivity; eassumption.
    + intros Ho. destruct (Hok Ho) as [-> Hdef]. exists offset.
      split; [reflexivity|]. split; [exact Hdef|].
      apply Hall. destruct o' as [[]|f]; [reflexivity|].
      specialize (Hf f eq_refl). congruence.
  - intros [= <- <-]. cbn. repeat split; try constructor.
    + discriminate.
    + discriminate.
Qed.

(** The fault of a run that stops on a pixel is the fault of a pixel
    that the loop nest visits. *)
Lemma convert_fault f st' :
  convert_ = (Ub f, st') ->
  match f with
  | DepthOutOfBounds pos =>
      exists offset v u,
        to_int (offset_float cam_model scan_height) = Some offset
        /\ (v, u) ∈ loop_pixels enc self depth_msg offset
        /\ pos = v * row_step enc depth_msg + u
        /\ at_index (data depth_msg) pos = None
  | RangesOutOfBounds i =>
      exists offset v u,
        to_int (offset_float cam_model scan_height) = Some offset
        /\ (v, u) ∈ loop_pixels enc self depth_msg offset
        /\ to_int (index_float atan2 enc cam_model scan_msg u) = Some i
        /\ ~ (0 <= i < Z.of_nat (length (ranges scan_msg)))
  | _ => True
  end.
Proof.
  rewrite convert_offset.
  destruct (to_int (offset_float cam_model scan_height)) as [offset|].
  2:{ intros [= <- <-]. exact I. }
  intros (l & o' & Hl & Hrun & Hf & Hok & _)%loop_nest_inv.
  destruct o' as [[]|f'].
  - destruct (Hok eq_refl) as [?|[?|[pos ?]]]; try discriminate;
      match goal with H : Ub _ = Ub _ |- _ => injection H as -> end;
      exact I.
  - specialize (Hf f' eq_refl). injection Hf as <-.
    apply run_fault in Hrun as (v & u & Hin & Hfault).
    pose proof (elem_of_prefix _ _ _ Hin Hl) as Hin'.
    destruct f; try exact I.
    + destruct Hfault as [-> Hnone]. exists offset, v, u. auto.
    + destruct Hfault as [Hi Hout]. exists offset, v, u. auto.
Qed.

(** A run whose behaviour is defined at every pixel of its window
    completes, having processed the window. *)
Lemma convert_completes offset :
  to_int (offset_float cam_model scan_height) = Some offset ->
  image_well_formed enc depth_msg ->
  window_in_image enc self depth_msg offset ->
  bins_in_scan atan2 enc depth_msg cam_model scan_msg ->
  exists st',
    convert_ = (Ok tt, st')
    /\ ev_pixel <$> st_log st' = window_pixels enc self depth_msg offset.
Proof.
  intros Hoff Himg Hwin Hbins.
  destruct (run_total atan2 hypot enc depth_msg cam_model scan_msg
              (window_pixels enc self depth_msg offset)
              (initial_state scan_msg)) as [st' Hrun].
  { apply window_defined; assumption. }
  exists st'. rewrite convert_offset, Hoff.
  rewrite loop_nest_run by (apply window_rows_defined; assumption).
  rewrite loop_pixels_well_formed by assumption.
  split; [exact Hrun|].
  apply run_log in Hrun as (evs & Hlog & _ & _ & _ & Hall).
  cbn [initial_state st_log app] in Hlog. rewrite Hlog. auto.
Qed.

(** The rows that a completed run has read. *)
Lemma rows_of_window offset (l : list pixel_event) :
  ev_pixel <$> l = window_pixels enc self depth_msg offset ->
  0 < width depth_msg ->
  forall v, v ∈ ev_v <$> l <-> offset <= v < offset + scan_height_ self.
Proof.
  intros Hl Hw v. split.
  - intros (e & -> & He)%list_elem_of_fmap.
    assert ((ev_v e, ev_u e) ∈ ev_pixel <$> l) as Hin.
    { apply list_elem_of_fmap. exists e. auto. }
    rewrite Hl in Hin. apply elem_of_window_pixels in Hin. tauto.
  - intros Hv.
    assert ((v, 0) ∈ ev_pixel <$> l) as (e & [= -> _] & He)%list_elem_of_fmap.
    { rewrite Hl. apply elem_of_window_pixels. lia. }
    apply list_elem_of_fmap. exists e. auto.
Qed.

(** The bin [i] after any run: the value it held before, reduced by the
    logged candidates of that bin. *)
Lemma convert_bin o st' i old :
  convert_ = (o, st') ->
  at_index (ranges scan_msg) i = Some old ->
  at_index (st_ranges st') i
  = Some (bin_value (range_min scan_msg) (range_max scan_msg) old
            (candidates_of i (ev_cand <$> st_log st'))).
Proof.
  intros (-> & _)%convert_inv Hold. apply process_at. exact Hold.
Qed.

(** A logged candidate of the bin [i] comes from a sample of the image
    whose column has the bin [i]. *)
Lemma logged_candidate o st' i x :
  convert_ = (o, st') ->
  x ∈ candidates_of i (ev_cand <$> st_log st') ->
  exists e d,
    e ∈ st_log st'
    /\ at_index (data depth_msg)
         (ev_v e * row_step enc depth_msg + ev_u e) = Some d
    /\ to_int (index_float atan2 enc cam_model scan_msg (ev_u e)) = Some i
    /\ x = to_float (candidate hypot enc cam_model (ev_u e) d).
Proof.
  intros (_ & Hok & _)%convert_inv Hx.
  apply elem_of_candidates_of, list_elem_of_fmap in Hx as (e & He & Hin).
  rewrite Forall_forall in Hok. destruct (Hok e Hin) as (d & Hd & Hi & Hr & _).
  injection He as -> ->. exists e, d. auto.
Qed.

(** Conversely, a processed pixel offers its candidate to its bin. *)
Lemma candidate_logged o st' v u d i :
  convert_ = (o, st') ->
  (v, u) ∈ ev_pixel <$> st_log st' ->
  at_index (data depth_msg) (v * row_step enc depth_msg + u) = Some d ->
  to_int (index_float atan2 enc cam_model scan_msg u) = Some i ->
  to_float (candidate hypot enc cam_model u d)
    ∈ candidates_of i (ev_cand <$> st_log st').
Proof.
  intros (_ & Hok & _)%convert_inv (e & He & Hin)%list_elem_of_fmap Hd Hi.
  rewrite Forall_forall in Hok.
  destruct (Hok e Hin) as (d' & Hd' & Hi' & Hr & _).
  injection He as -> ->.
  apply elem_of_candidates_of, list_elem_of_fmap. exists e.
  split; [|exact Hin]. unfold ev_cand. congruence.
Qed.

End Runs.

(** ** Termination and the pixels processed *)

(** Closed side conditions of the examples, by evaluation. *)
Ltac by_evaluation :=
  vm_compute; repeat split; first [reflexivity | discriminate].

(** C8, as the code has it. For every input that satisfies the window
    precondition (the rows [offset .. offset + scan_height_ - 1], with
    [scan_height_ >= 0], lie in a well-formed image) and whose columns all
    have their bin in [scan_msg->ranges], [convert] terminates and
    returns.  It has no early
    exit: it has processed the pixels of the window in row-major order,
    each exactly once, [scan_height_ * width] pixels in all, handing the
    candidate of each sample to the reduction of its bin. *)
Theorem convert_processes_window
    atan2 hypot enc self (depth_msg : Image enc) cam_model scan_msg
    scan_height offset :
  image_well_formed enc depth_msg ->
  to_int (offset_float cam_model scan_height) = Some offset ->
  window_in_image enc self depth_msg offset ->
  0 <= scan_height_ self ->
  bins_in_scan atan2 enc depth_msg cam_model scan_msg ->
  exists st',
    convert atan2 hypot enc self depth_msg cam_model scan_msg scan_height
    = (Ok tt, st')
    /\ ev_pixel <$> st_log st' = window_pixels enc self depth_msg offset
    /\ NoDup (ev_pixel <$> st_log st')
    /\ (forall v u, (v, u) ∈ ev_pixel <$> st_log st'
          <-> offset <= v < offset + scan_height_ self
              /\ 0 <= u < width depth_msg)
    /\ Z.of_nat (length (st_log st'))
       = scan_height_ self * width depth_msg
    /\ Forall (event_ok atan2 hypot enc depth_msg cam_model scan_msg
                 (length (ranges scan_msg))) (st_log st')
    /\ st_ranges st'
       = process (range_min scan_msg) (range_max scan_msg)
           (ev_cand <$> st_log st') (ranges scan_msg).
Proof.
  intros Himg Hoff Hwin Hh Hbins.
  destruct (convert_completes atan2 hypot enc self depth_msg cam_model
              scan_msg scan_height offset Hoff Himg Hwin Hbins)
    as (st' & Hrun & Hpix).
  exists st'. split; [exact Hrun|]. split; [exact Hpix|].
  pose proof Hrun as (Hrs & Hok & _)%convert_inv.
  rewrite Hpix.
  split; [apply NoDup_window_pixels|].
  split; [intros v u; apply elem_of_window_pixels|].
  split; [|split; assumption].
  rewrite <- (length_fmap ev_pixel), Hpix.
  apply length_window_pixels; [assumption|apply Himg].
Qed.

Lemma convert_processes_window_witness :
  exists st',
    convert AnnexF.atan2 AnnexF.hypot TYPE_32FC1 (Examples.converter 3)
      (Examples.column32
         [Examples.metres 2 0; Examples.metres 1 0; Examples.metres 3 0])
      (Examples.camera (dec 15 1)) (Examples.scan (dec (-5) 1) (dec 1 1) 1) 3
    = (Ok tt, st')
    /\ ev_pixel <$> st_log st' = [(0, 0); (1, 0); (2, 0)]
    /\ Z.of_nat (length (st_log st')) = 3.
Proof.
  destruct (convert_processes_window AnnexF.atan2 AnnexF.hypot TYPE_32FC1
              (Examples.converter 3)
              (Examples.column32
                 [Examples.metres 2 0; Examples.metres 1 0;
                  Examples.metres 3 0])
              (Examples.camera (dec 15 1))
              (Examples.scan (dec (-5) 1) (dec 1 1) 1) 3 0)
    as (st' & Hrun & Hpix & _ & _ & Hlen & _).
  - by_evaluation.
  - vm_compute. reflexivity.
  - by_evaluation.
  - cbn. lia.
  - intros u Hu. assert (u = 0) as -> by (cbn in Hu; lia).
    exists 0. split; [vm_compute; reflexivity|cbn; lia].
  - exists st'. auto.
Defined.

(** C8, as the document has it, fails: the window precondition does not
    make the run complete.  Rows 0 and 1 of an image of two rows are the
    window, [2 * 1] pixels; with one bin that starts at -1.5 rad the first
    pixel has the bin index 1, outside the vector, and the run stops on
    the undefined access [ranges[1]] with no pixel processed. *)
Lemma window_run_stops_at_bin :
  image_well_formed TYPE_32FC1
    (Examples.column32 [Examples.metres 2 0; Examples.metres 1 0])
  /\ to_int (offset_float (Examples.camera (dec 175 2)) 2) = Some 0
  /\ window_in_image TYPE_32FC1 (Examples.converter 2)
       (Examples.column32 [Examples.metres 2 0; Examples.metres 1 0]) 0
  /\ length (window_pixels TYPE_32FC1 (Examples.converter 2)
               (Examples.column32 [Examples.metres 2 0; Examples.metres 1 0])
               0) = 2%nat
  /\ convert AnnexF.atan2 AnnexF.hypot TYPE_32FC1 (Examples.converter 2)
       (Examples.column32 [Examples.metres 2 0; Examples.metres 1 0])
       (Examples.camera (dec 175 2))
       (Examples.scan (dec (-15) 1) (dec 1 1) 1) 2
     = (Ub (RangesOutOfBounds 1),
        {| st_ranges := [pinf]; st_log := [] |}).
Proof.
  split; [by_evaluation|]. split; [vm_compute; reflexivity|].
  split; [by_evaluation|]. split; vm_compute; reflexivity.
Qed.

(** ** The rows of the window *)

(** C10. The rows that a call of [convert] iterates are the
    [scan_height_] rows [offset .. offset + scan_height_ - 1], counted by
    the data member of the converter; the argument [scan_height] takes part
    in the first row [offset] only: calls that differ in the argument and
    agree on the first row do the same. *)
Theorem rows_counted_by_member
    atan2 hypot enc self (depth_msg : Image enc) cam_model scan_msg
    scan_height offset :
  to_int (offset_float cam_model scan_height) = Some offset ->
  image_well_formed enc depth_msg ->
  window_in_image enc self depth_msg offset ->
  bins_in_scan atan2 enc depth_msg cam_model scan_msg ->
  0 < width depth_msg ->
  (exists st',
     convert atan2 hypot enc self depth_msg cam_model scan_msg scan_height
     = (Ok tt, st')
     /\ (forall v, v ∈ ev_v <$> st_log st'
           <-> offset <= v < offset + scan_height_ self))
  /\ (forall scan_height',
        to_int (offset_float cam_model scan_height') = Some offset ->
        convert atan2 hypot enc self depth_msg cam_model scan_msg scan_height'
        = convert atan2 hypot enc self depth_msg cam_model scan_msg
            scan_height).
Proof.
  intros Hoff Himg Hwin Hbins Hw. split.
  - destruct (convert_completes atan2 hypot enc self depth_msg cam_model
                scan_msg scan_height offset Hoff Himg Hwin Hbins)
      as (st' & Hrun & Hall).
    exists st'. split; [exact Hrun|].
    eapply rows_of_window; eassumption.
  - intros scan_height' Hoff'. rewrite !convert_offset, Hoff, Hoff'.
    reflexivity.
Qed.

Lemma rows_counted_by_member_witness :
  (exists st',
     convert AnnexF.atan2 AnnexF.hypot TYPE_32FC1 (Examples.converter 2)
       (Examples.column32 [Examples.metres 2 0; Examples.metres 1 0])
       (Examples.camera (dec 5 1)) (Examples.scan (dec (-5) 1) (dec 1 1) 1) 1
     = (Ok tt, st')
     /\ (forall v, v ∈ ev_v <$> st_log st' <-> 0 <= v < 0 + 2))
  /\ (forall scan_height',
        to_int (offset_float (Examples.camera (dec 5 1)) scan_height')
        = Some 0 ->
        convert AnnexF.atan2 AnnexF.hypot TYPE_32FC1 (Examples.converter 2)
          (Examples.column32 [Examples.metres 2 0; Examples.metres 1 0])
          (Examples.camera (dec 5 1)) (Examples.scan (dec (-5) 1) (dec 1 1) 1)
          scan_height'
        = convert AnnexF.atan2 AnnexF.hypot TYPE_32FC1 (Examples.converter 2)
            (Examples.column32 [Examples.metres 2 0; Examples.metres 1 0])
            (Examples.camera (dec 5 1))
            (Examples.scan (dec (-5) 1) (dec 1 1) 1) 1).
Proof.
  apply (rows_counted_by_member AnnexF.atan2 AnnexF.hypot TYPE_32FC1
           (Examples.converter 2)
           (Examples.column32 [Examples.metres 2 0; Examples.metres 1 0])
           (Examples.camera (dec 5 1))
           (Examples.scan (dec (-5) 1) (dec 1 1) 1) 1 0).
  - vm_compute. reflexivity.
  - by_evaluation.
  - by_evaluation.
  - intros u Hu. assert (u = 0) as -> by (cbn in Hu; lia).
    exists 0. split; [vm_compute; reflexivity|cbn; lia].
  - cbn. lia.
Defined.

(** C6, as the code has it. The first row is
    [offset = (int)(center_y - scan_height / 2)]: the window height is
    halved as an [int], the difference is a [float] and is truncated
    toward zero.  When the converter's [scan_height_] is the argument
    [scan_height], the rows iterated are exactly
    [offset .. offset + scan_height - 1], in this order. *)
Theorem first_row_truncated
    atan2 hypot enc self (depth_msg : Image enc) cam_model scan_msg
    scan_height offset :
  scan_height_ self = scan_height ->
  to_int (F32.sub (to_float (cy cam_model)) (F32.of_Z (Z.quot scan_height 2)))
  = Some offset ->
  image_well_formed enc depth_msg ->
  window_in_image enc self depth_msg offset ->
  bins_in_scan atan2 enc depth_msg cam_model scan_msg ->
  0 < width depth_msg ->
  exists st',
    convert atan2 hypot enc self depth_msg cam_model scan_msg scan_height
    = (Ok tt, st')
    /\ ev_pixel <$> st_log st'
       = (v ← Spec.rows offset scan_height;
          (λ u, (v, u)) <$> seqZ 0 (width depth_msg))
    /\ (forall v, v ∈ ev_v <$> st_log st'
          <-> offset <= v <= offset + scan_height - 1).
Proof.
  intros Hself Hoff Himg Hwin Hbins Hw.
  destruct (convert_completes atan2 hypot enc self depth_msg cam_model
              scan_msg scan_height offset Hoff Himg Hwin Hbins)
    as (st' & Hrun & Hall).
  exists st'. split; [exact Hrun|]. split.
  - rewrite Hall. unfold window_pixels, Spec.rows. rewrite Hself. reflexivity.
  - intros v. rewrite (rows_of_window enc self depth_msg offset _ Hall Hw).
    lia.
Qed.

Lemma first_row_truncated_witness :
  exists st',
    convert AnnexF.atan2 AnnexF.hypot TYPE_32FC1 (Examples.converter 2)
      (Examples.column32 [Examples.metres 2 0; Examples.metres 1 0])
      (Examples.camera (dec 175 2)) (Examples.scan (dec (-5) 1) (dec 1 1) 1) 2
    = (Ok tt, st')
    /\ ev_pixel <$> st_log st' = [(0, 0); (1, 0)]
    /\ (forall v, v ∈ ev_v <$> st_log st' <-> 0 <= v <= 0 + 2 - 1).
Proof.
  apply (first_row_truncated AnnexF.atan2 AnnexF.hypot TYPE_32FC1
           (Examples.converter 2)
           (Examples.column32 [Examples.metres 2 0; Examples.metres 1 0])
           (Examples.camera (dec 175 2))
           (Examples.scan (dec (-5) 1) (dec 1 1) 1) 2 0).
  - reflexivity.
  - vm_compute. reflexivity.
  - by_evaluation.
  - by_evaluation.
  - intros u Hu. assert (u = 0) as -> by (cbn in Hu; lia).
    exists 0. split; [vm_compute; reflexivity|cbn; lia].
  - cbn. lia.
Defined.

(** C6, as the document has it, fails twice.  With
    [principal_point_y = 239.75] and [scan_height = 2] the code starts at
    row 238 and the rounded formula at row 239; and a converter whose
    [scan_height_] is 2, called with [scan_height = 1], iterates the rows 0
    and 1 and not the single row the formula gives. *)
Lemma first_row_not_rounded :
  (to_int (offset_float (Examples.camera (dec 23975 2)) 2) = Some 238
   /\ Spec.offset (Examples.camera (dec 23975 2)) 2 = Some 239)
  /\ (exists st',
        convert AnnexF.atan2 AnnexF.hypot TYPE_32FC1 (Examples.converter 2)
          (Examples.column32 [Examples.metres 2 0; Examples.metres 1 0])
          (Examples.camera (dec 5 1)) (Examples.scan (dec (-5) 1) (dec 1 1) 1)
          1
        = (Ok tt, st')
        /\ to_int (offset_float (Examples.camera (dec 5 1)) 1) = Some 0
        /\ ev_v <$> st_log st' = [0; 1]
        /\ Spec.rows 0 1 = [0]).
Proof.
  split; [split; vm_compute; reflexivity|].
  eexists. split; [vm_compute; reflexivity|].
  split; [|split]; vm_compute; reflexivity.
Qed.

(** ** The window and the image data *)

(** The arithmetic of the loop nest is defined only for a window inside
    the image, when the image data are exactly the rows of the image. *)
Lemma rows_defined_in_image enc self (depth_msg : Image enc) offset :
  0 < row_step enc depth_msg ->
  Z.of_nat (length (data depth_msg))
  = height depth_msg * row_step enc depth_msg ->
  rows_defined enc self depth_msg offset ->
  window_in_image enc self depth_msg offset.
Proof.
  intros Hstep Hlen (_ & Hptr & Hbound & Hrows). rewrite Hlen in *.
  unfold window_in_image.
  assert (0 <= offset <= height depth_msg) as Ho by nia.
  split; [exact Ho|]. split; [lia|].
  destruct (Z.le_gt_cases (scan_height_ self) 0) as [Hh|Hh]; [lia|].
  specialize (Hrows (offset + scan_height_ self - 1)). nia.
Qed.

(** C4, as the code has it. [convert] does not check the window; keeping
    it inside the image is left to the caller.  When the rows
    [offset .. offset + scan_height_ - 1] lie in a well-formed image, no
    run reads a depth sample outside the image data: it does not stop on
    such a read, nor on the row pointer leaving the data or on an [int]
    overflow, and every pixel it has processed is a sample of a row of
    the image.  When the window is not inside an image whose data are
    exactly its rows (of a positive row step), the call is not refused:
    it has undefined behaviour, no run of it being a defined return. *)
Theorem window_reads_in_image
    atan2 hypot enc self (depth_msg : Image enc) cam_model scan_msg
    scan_height offset o st' :
  to_int (offset_float cam_model scan_height) = Some offset ->
  convert atan2 hypot enc self depth_msg cam_model scan_msg scan_height
  = (o, st') ->
  (image_well_formed enc depth_msg ->
   window_in_image enc self depth_msg offset ->
   (forall pos, o <> Ub (DepthOutOfBounds pos))
   /\ (forall pos, o <> Ub (PointerOutOfBounds pos))
   /\ o <> Ub IntOverflow
   /\ Forall (λ e, 0 <= ev_v e < height depth_msg
                   /\ 0 <= ev_u e < width depth_msg
                   /\ is_Some (at_index (data depth_msg)
                                 (ev_v e * row_step enc depth_msg + ev_u e)))
        (st_log st'))
  /\ (0 < row_step enc depth_msg ->
      Z.of_nat (length (data depth_msg))
      = height depth_msg * row_step enc depth_msg ->
      ~ window_in_image enc self depth_msg offset ->
      exists f, o = Ub f).
Proof.
  intros Hoff Hrun. split.
  - intros Himg Hwin.
    pose proof (window_rows_defined enc depth_msg self offset Himg Hwin)
      as Hdef.
    split; [|split; [|split]].
    + intros pos ->. apply convert_fault in Hrun
        as (offset' & v & u & Hoff' & Hin & -> & Hnone).
      assert (offset' = offset) as -> by congruence.
      apply loop_pixels_in_window in Hin.
      destruct (window_samples enc depth_msg self offset v u Himg Hwin Hin)
        as [d Hd].
      congruence.
    + intros pos ->. rewrite convert_offset, Hoff, loop_nest_run in Hrun
        by exact Hdef.
      apply run_fault in Hrun as (v & u & _ & []).
    + intros ->. rewrite convert_offset, Hoff, loop_nest_run in Hrun
        by exact Hdef.
      apply run_fault in Hrun as (v & u & _ & []).
    + apply convert_inv in Hrun as (_ & _ & Hpre & _).
      specialize (Hpre offset Hoff). apply Forall_forall. intros e He.
      assert ((ev_v e, ev_u e) ∈ window_pixels enc self depth_msg offset)
        as Hin.
      { apply loop_pixels_in_window.
        eapply elem_of_prefix; [|exact Hpre].
        apply list_elem_of_fmap. exists e. auto. }
      destruct (window_samples enc depth_msg self offset _ _ Himg Hwin Hin)
        as [d Hd].
      apply elem_of_window_pixels in Hin. destruct Hwin.
      rewrite Hd. split; [lia|]. split; [lia|eauto].
  - intros Hstep Hlen Hout. destruct o as [[]|f]; [|eauto].
    apply convert_inv in Hrun as (_ & _ & _ & Hall).
    destruct (Hall eq_refl) as (offset' & Hoff' & Hdef & _).
    assert (offset' = offset) as -> by congruence.
    contradict Hout. eapply rows_defined_in_image; eassumption.
Qed.

Lemma window_reads_in_image_witness :
  ((forall pos, Ok tt <> Ub (DepthOutOfBounds pos))
   /\ Forall (λ e, 0 <= ev_v e < 2 /\ 0 <= ev_u e < 1
                   /\ is_Some (at_index
                                 [Examples.metres 2 0; Examples.metres 1 0]
                                 (ev_v e * 1 + ev_u e)))
        [{| ev_v := 0; ev_u := 0; ev_index := 0; ev_r := Examples.metres 2 0;
            ev_used := true |};
         {| ev_v := 1; ev_u := 0; ev_index := 0; ev_r := Examples.metres 1 0;
            ev_used := true |}])
  /\ (exists f, Ub (DepthOutOfBounds 1) = @Ub unit f).
Proof.
  split.
  - destruct (proj1 (window_reads_in_image AnnexF.atan2 AnnexF.hypot
                       TYPE_32FC1 (Examples.converter 2)
                       (Examples.column32
                          [Examples.metres 2 0; Examples.metres 1 0])
                       (Examples.camera (dec 175 2))
                       (Examples.scan (dec (-5) 1) (dec 1 1) 1) 2 0 (Ok tt)
                       {| st_ranges := [Examples.metres 1 0];
                          st_log :=
                            [{| ev_v := 0; ev_u := 0; ev_index := 0;
                                ev_r := Examples.metres 2 0;
                                ev_used := true |};
                             {| ev_v := 1; ev_u := 0; ev_index := 0;
                                ev_r := Examples.metres 1 0;
                                ev_used := true |}] |}
                       ltac:(vm_compute; reflexivity)
                       ltac:(vm_compute; reflexivity)))
      as (Hread & _ & _ & Hlog).
    + by_evaluation.
    + by_evaluation.
    + split; [exact Hread|exact Hlog].
  - apply (proj2 (window_reads_in_image AnnexF.atan2 AnnexF.hypot
                    TYPE_32FC1 (Examples.converter 2)
                    (Examples.column32 [Examples.metres 2 0])
                    (Examples.camera (dec 5 1))
                    (Examples.scan (dec (-5) 1) (dec 1 1) 1) 2 0
                    (Ub (DepthOutOfBounds 1))
                    {| st_ranges := [Examples.metres 2 0];
                       st_log :=
                         [{| ev_v := 0; ev_u := 0; ev_index := 0;
                             ev_r := Examples.metres 2 0;
                             ev_used := true |}] |}
                    ltac:(vm_compute; reflexivity)
                    ltac:(vm_compute; reflexivity))).
    + vm_compute. reflexivity.
    + reflexivity.
    + intros (_ & _ & H). vm_compute in H. apply H. reflexivity.
Defined.

(** C4, as the document has it, fails: a window of two rows on an image
    of one row (rows 0 and 1, the image having row 0 only) is not
    refused.  [convert] reads the sample of row 0 and writes its range
    into the vector before the read of row 1 leaves the image data. *)
Lemma window_not_refused :
  to_int (offset_float (Examples.camera (dec 5 1)) 2) = Some 0
  /\ ~ window_in_image TYPE_32FC1 (Examples.converter 2)
         (Examples.column32 [Examples.metres 2 0]) 0
  /\ convert AnnexF.atan2 AnnexF.hypot TYPE_32FC1 (Examples.converter 2)
       (Examples.column32 [Examples.metres 2 0])
       (Examples.camera (dec 5 1)) (Examples.scan (dec (-5) 1) (dec 1 1) 1) 2
     = (Ub (DepthOutOfBounds 1),
        {| st_ranges := [Examples.metres 2 0];
           st_log := [{| ev_v := 0; ev_u := 0; ev_index := 0;
                         ev_r := Examples.metres 2 0; ev_used := true |}] |})
  /\ ranges (Examples.scan (dec (-5) 1) (dec 1 1) 1) = [pinf].
Proof.
  split; [vm_compute; reflexivity|]. split.
  - unfold window_in_image. cbn. lia.
  - split; vm_compute; reflexivity.
Qed.

(** ** The bin of a pixel *)

Lemma floor_of_to_int x i :
  to_int x = Some i -> sign_bit x = false -> floor x = Some i.
Proof.
  unfold to_int. destruct x as [s|s| |s m e]; cbn; try discriminate.
  - intros [= <-] _. reflexivity.
  - intros H ->. cbn in *.
    destruct (_ && _) in H; [|discriminate]. exact H.
Qed.

(** C1, as the code has it. [convert] does not check the bin index of a
    pixel.  When every column of the image has its bin inside
    [scan_msg->ranges], no run accesses the vector outside its bounds and
    every access it has made is inside them; a pixel whose bin index is
    outside the vector is not discarded: the loop body accesses
    [ranges[index]] all the same, which is undefined. *)
Theorem ranges_accesses
    atan2 hypot enc self (depth_msg : Image enc) cam_model scan_msg
    scan_height :
  (bins_in_scan atan2 enc depth_msg cam_model scan_msg ->
   forall o st',
     convert atan2 hypot enc self depth_msg cam_model scan_msg scan_height
     = (o, st') ->
     (forall index, o <> Ub (RangesOutOfBounds index))
     /\ Forall (λ e, 0 <= ev_index e < Z.of_nat (length (ranges scan_msg)))
          (st_log st'))
  /\ (forall v u depth_row st d index,
        at_index (data depth_msg) (depth_row + u) = Some d ->
        to_int (index_float atan2 enc cam_model scan_msg u) = Some index ->
        ~ (0 <= index < Z.of_nat (length (st_ranges st))) ->
        pixel atan2 hypot enc depth_msg cam_model scan_msg v u depth_row st
        = (Ub (RangesOutOfBounds index), st)).
Proof.
  split.
  - intros Hbins o st' Hrun. split.
    + intros index ->.
      apply convert_fault in Hrun as (offset & v & u & _ & Hin & Hi & Hout).
      apply loop_pixels_in_window, elem_of_window_pixels in Hin as [_ Hu].
      destruct (Hbins u Hu) as (i & Hi' & Hb). congruence.
    + apply convert_inv in Hrun as (_ & Hok & _).
      eapply Forall_impl; [exact Hok|].
      intros e (d & _ & _ & _ & Hb). exact Hb.
  - intros v u depth_row st d index Hd Hi Hout.
    rewrite pixel_spec, Hd, Hi.
    apply at_index_None in Hout. rewrite Hout. reflexivity.
Qed.

Lemma ranges_accesses_witness :
  ((forall index, Ok tt <> Ub (RangesOutOfBounds index))
   /\ Forall (λ e, 0 <= ev_index e < 1)
        [{| ev_v := 0; ev_u := 0; ev_index := 0; ev_r := Examples.metres 2 0;
            ev_used := true |}])
  /\ pixel AnnexF.atan2 AnnexF.hypot TYPE_32FC1
       (Examples.column32 [Examples.metres 2 0]) (Examples.camera (dec 0 0))
       (Examples.scan (dec (-15) 1) (dec 1 1) 1) 0 0 0
       (initial_state (Examples.scan (dec (-15) 1) (dec 1 1) 1))
     = (Ub (RangesOutOfBounds 1),
        initial_state (Examples.scan (dec (-15) 1) (dec 1 1) 1)).
Proof.
  split.
  - refine (proj1 (ranges_accesses AnnexF.atan2 AnnexF.hypot TYPE_32FC1
                     (Examples.converter 1)
                     (Examples.column32 [Examples.metres 2 0])
                     (Examples.camera (dec 0 0))
                     (Examples.scan (dec (-5) 1) (dec 1 1) 1) 1)
              _ (Ok tt)
              {| st_ranges := [Examples.metres 2 0];
                 st_log := [{| ev_v := 0; ev_u := 0; ev_index := 0;
                               ev_r := Examples.metres 2 0;
                               ev_used := true |}] |} _).
    + intros u Hu. assert (u = 0) as -> by (cbn in Hu; lia).
      exists 0. split; [vm_compute; reflexivity|cbn; lia].
    + vm_compute. reflexivity.
  - apply (proj2 (ranges_accesses AnnexF.atan2 AnnexF.hypot TYPE_32FC1
                    (Examples.converter 1)
                    (Examples.column32 [Examples.metres 2 0])
                    (Examples.camera (dec 0 0))
                    (Examples.scan (dec (-15) 1) (dec 1 1) 1) 1)
             0 0 0 _ (Examples.metres 2 0) 1).
    + vm_compute. reflexivity.
    + vm_compute. reflexivity.
    + cbn. lia.
Defined.

(** C1, as the document has it, fails: with one bin that starts at -1.5
    rad, the pixel on the optical axis has the bin index 1, outside the
    vector; [convert] does not discard the sample but accesses
    [ranges[1]]. *)
Lemma bin_index_not_checked :
  length (ranges (Examples.scan (dec (-15) 1) (dec 1 1) 1)) = 1%nat
  /\ to_int (index_float AnnexF.atan2 TYPE_32FC1 (Examples.camera (dec 0 0))
               (Examples.scan (dec (-15) 1) (dec 1 1) 1) 0) = Some 1
  /\ convert AnnexF.atan2 AnnexF.hypot TYPE_32FC1 (Examples.converter 1)
       (Examples.column32 [Examples.metres 2 0]) (Examples.camera (dec 0 0))
       (Examples.scan (dec (-15) 1) (dec 1 1) 1) 1
     = (Ub (RangesOutOfBounds 1),
        initial_state (Examples.scan (dec (-15) 1) (dec 1 1) 1)).
Proof. repeat split; vm_compute; reflexivity. Qed.

(** C5, as the code has it. The bin of every processed pixel is
    [(int)((th - angle_min) / angle_increment)] with
    [th = -atan2((double)(u - center_x) * constant_x, unit_scaling)]: the
    quotient is truncated toward zero, which is its floor when it is not
    negative.  The bin depends on the column only: in any two runs with
    the same encoding, camera and scan, on whatever images and rows, the
    pixels of one column have one bin. *)
Theorem bin_of_column
    atan2 hypot enc cam_model scan_msg
    self (depth_msg : Image enc) scan_height o st'
    self' (depth_msg' : Image enc) scan_height' o' st'' :
  convert atan2 hypot enc self depth_msg cam_model scan_msg scan_height
  = (o, st') ->
  convert atan2 hypot enc self' depth_msg' cam_model scan_msg scan_height'
  = (o', st'') ->
  (forall e, e ∈ st_log st' ->
     let th :=
       SFopp
         (atan2 (F64.mul (to_double (F32.sub (F32.of_Z (ev_u e))
                                             (to_float (cx cam_model))))
                         (to_double (constant_x enc cam_model)))
                (unit_scaling enc)) in
     let q := F64.div (F64.sub th (to_double (angle_min scan_msg)))
                      (to_double (angle_increment scan_msg)) in
     to_int q = Some (ev_index e)
     /\ (sign_bit q = false -> Spec.index th scan_msg = Some (ev_index e)))
  /\ (forall e e', e ∈ st_log st' -> e' ∈ st_log st'' ->
        ev_u e = ev_u e' -> ev_index e = ev_index e').
Proof.
  intros Hrun Hrun'.
  apply convert_inv in Hrun as (_ & Hok & _).
  apply convert_inv in Hrun' as (_ & Hok' & _).
  rewrite Forall_forall in Hok, Hok'. split.
  - intros e He. destruct (Hok e He) as (d & _ & Hi & _).
    cbv zeta. split; [exact Hi|].
    intros Hs. apply floor_of_to_int; assumption.
  - intros e e' He He' Hu.
    destruct (Hok e He) as (d & _ & Hi & _).
    destruct (Hok' e' He') as (d' & _ & Hi' & _).
    rewrite Hu in Hi. congruence.
Qed.

Lemma bin_of_column_witness :
  exists o st' o' st'',
    convert AnnexF.atan2 AnnexF.hypot TYPE_32FC1 (Examples.converter 2)
      (Examples.column32 [Examples.metres 2 0; S754_nan])
      (Examples.camera (dec 175 2)) (Examples.scan (dec (-5) 1) (dec 1 1) 1) 2
    = (o, st')
    /\ convert AnnexF.atan2 AnnexF.hypot TYPE_32FC1 (Examples.converter 1)
         (Examples.column32 [Examples.metres 3 0; Examples.metres 4 0])
         (Examples.camera (dec 175 2)) (Examples.scan (dec (-5) 1) (dec 1 1) 1)
         1
       = (o', st'')
    /\ length (st_log st') = 2%nat /\ length (st_log st'') = 1%nat
    /\ (forall e e', e ∈ st_log st' -> e' ∈ st_log st'' ->
          ev_u e = ev_u e' -> ev_index e = ev_index e').
Proof.
  eexists _, _, _, _.
  split; [vm_compute; reflexivity|]. split; [vm_compute; reflexivity|].
  split; [reflexivity|]. split; [reflexivity|].
  refine (proj2 (bin_of_column AnnexF.atan2 AnnexF.hypot TYPE_32FC1
                   (Examples.camera (dec 175 2))
                   (Examples.scan (dec (-5) 1) (dec 1 1) 1)
                   (Examples.converter 2)
                   (Examples.column32 [Examples.metres 2 0; S754_nan]) 2 _ _
                   (Examples.converter 1)
                   (Examples.column32 [Examples.metres 3 0; Examples.metres 4 0]) 1 _ _ _ _));
    vm_compute; reflexivity.
Defined.

(** C5, as the document has it, fails: with one bin that starts at 0.5
    rad, the quotient of the pixel on the optical axis is -0.5; its floor
    is -1, outside the vector, and the code truncates it to 0, so that the
    pixel is written into bin 0. *)
Lemma bin_index_not_floor :
  index_float AnnexF.atan2 TYPE_32FC1 (Examples.camera (dec 0 0))
    (Examples.scan (dec 5 1) (dec 1 1) 1) 0 = dec (-5) 1
  /\ Spec.index (th AnnexF.atan2 TYPE_32FC1 (Examples.camera (dec 0 0)) 0)
       (Examples.scan (dec 5 1) (dec 1 1) 1) = Some (-1)
  /\ convert AnnexF.atan2 AnnexF.hypot TYPE_32FC1 (Examples.converter 1)
       (Examples.column32 [Examples.metres 2 0]) (Examples.camera (dec 0 0))
       (Examples.scan (dec 5 1) (dec 1 1) 1) 1
     = (Ok tt,
        {| st_ranges := [Examples.metres 2 0];
           st_log := [{| ev_v := 0; ev_u := 0; ev_index := 0;
                         ev_r := Examples.metres 2 0; ev_used := true |}] |}).
Proof. repeat split; vm_compute; reflexivity. Qed.

(** ** The reduction *)

(** C2. The loop body hands [use_point] the candidate of the pixel, the
    value stored in its bin and the two limits of the scan, and writes the
    candidate when the answer is yes.  [use_point] keeps the shortest
    in-range candidate of a bin: a candidate that is not in range does not
    replace a stored value that is in range, an in-range candidate replaces
    a stored value that is not in range, and when the bin [index], holding
    no reading, is offered in a run the in-range candidates [r1 < r2] of
    two pixels, in whichever order, it holds [r1] in the end. *)
Theorem use_point_keeps_shortest
    atan2 hypot enc self (depth_msg : Image enc) cam_model scan_msg
    scan_height :
  (forall v u depth_row st d index old,
     at_index (data depth_msg) (depth_row + u) = Some d ->
     to_int (index_float atan2 enc cam_model scan_msg u) = Some index ->
     at_index (st_ranges st) index = Some old ->
     let r := to_float (candidate hypot enc cam_model u d) in
     let used :=
       use_point r old (range_min scan_msg) (range_max scan_msg) in
     pixel atan2 hypot enc depth_msg cam_model scan_msg v u depth_row st
     = (Ok tt,
        {| st_ranges :=
             if used then <[Z.to_nat index := r]> (st_ranges st)
             else st_ranges st;
           st_log := st_log st ++
             [{| ev_v := v; ev_u := u; ev_index := index;
                 ev_r := r; ev_used := used |}] |}))
  /\ (forall new_value old_value,
     in_range new_value (range_min scan_msg) (range_max scan_msg) = false ->
     in_range old_value (range_min scan_msg) (range_max scan_msg) = true ->
     use_point new_value old_value (range_min scan_msg) (range_max scan_msg)
     = false)
  /\ (forall new_value old_value,
        in_range new_value (range_min scan_msg) (range_max scan_msg) = true ->
        in_range old_value (range_min scan_msg) (range_max scan_msg) = false ->
        use_point new_value old_value (range_min scan_msg) (range_max scan_msg)
        = true)
  /\ (forall st' index old r1 r2 ra rb,
        convert atan2 hypot enc self depth_msg cam_model scan_msg scan_height
        = (Ok tt, st') ->
        at_index (ranges scan_msg) index = Some old ->
        in_range old (range_min scan_msg) (range_max scan_msg) = false ->
        in_range r1 (range_min scan_msg) (range_max scan_msg) = true ->
        in_range r2 (range_min scan_msg) (range_max scan_msg) = true ->
        SFltb r1 r2 = true ->
        candidates_of index (ev_cand <$> st_log st') = [ra; rb] ->
        (ra = r1 /\ rb = r2) \/ (ra = r2 /\ rb = r1) ->
        at_index (st_ranges st') index = Some r1).
Proof.
  split; [|split; [|split]].
  - intros v u depth_row st d index old Hd Hi Hold.
    rewrite pixel_spec, Hd, Hi, Hold. cbv zeta. unfold store. cbn [fst snd].
    rewrite Hold. reflexivity.
  - intros new_value old_value Hn Ho. unfold use_point. rewrite Hn.
    reflexivity.
  - intros new_value old_value Hn Ho. unfold use_point. rewrite Hn, Ho.
    reflexivity.
  - intros st' index old r1 r2 ra rb Hrun Hold Ho H1 H2 Hlt Hcs Horder.
    rewrite (convert_bin _ _ _ _ _ _ _ _ _ _ _ _ Hrun Hold), Hcs.
    f_equal. unfold bin_value, keep, use_point. cbn [foldl].
    pose proof (SFltb_asym _ _ Hlt) as Hgt.
    destruct Horder as [[-> ->]|[-> ->]];
      rewrite ?H1, ?H2, ?Ho; cbn; rewrite ?H1, ?H2, ?Hlt, ?Hgt; reflexivity.
Qed.

Lemma use_point_keeps_shortest_witness :
  use_point S754_nan (Examples.metres 2 0)
    (Examples.metres 1 1) (Examples.metres 10 0) = false
  /\ use_point (Examples.metres 2 0) pinf
       (Examples.metres 1 1) (Examples.metres 10 0) = true
  /\ at_index
       (st_ranges
          (convert AnnexF.atan2 AnnexF.hypot TYPE_32FC1 (Examples.converter 2)
             (Examples.column32 [Examples.metres 2 0; Examples.metres 1 0])
             (Examples.camera (dec 175 2))
             (Examples.scan (dec (-5) 1) (dec 1 1) 1) 2).2) 0
     = Some (Examples.metres 1 0)
  /\ at_index
       (st_ranges
          (convert AnnexF.atan2 AnnexF.hypot TYPE_32FC1 (Examples.converter 2)
             (Examples.column32 [Examples.metres 1 0; Examples.metres 2 0])
             (Examples.camera (dec 175 2))
             (Examples.scan (dec (-5) 1) (dec 1 1) 1) 2).2) 0
     = Some (Examples.metres 1 0).
Proof.
  pose proof (use_point_keeps_shortest AnnexF.atan2 AnnexF.hypot TYPE_32FC1
                (Examples.converter 2)
                (Examples.column32 [Examples.metres 2 0; Examples.metres 1 0])
                (Examples.camera (dec 175 2))
                (Examples.scan (dec (-5) 1) (dec 1 1) 1) 2)
    as (_ & Ha & Hb & Hc).
  split; [apply Ha; vm_compute; reflexivity|].
  split; [apply Hb; vm_compute; reflexivity|].
  split.
  - (* row 0 offers 2 m, row 1 offers 1 m *)
    refine (Hc {| st_ranges := [Examples.metres 1 0];
                  st_log :=
                    [{| ev_v := 0; ev_u := 0; ev_index := 0;
                        ev_r := Examples.metres 2 0; ev_used := true |};
                     {| ev_v := 1; ev_u := 0; ev_index := 0;
                        ev_r := Examples.metres 1 0; ev_used := true |}] |}
              0 pinf (Examples.metres 1 0) (Examples.metres 2 0)
              (Examples.metres 2 0) (Examples.metres 1 0)
              _ _ _ _ _ _ _ _); try (vm_compute; reflexivity).
    right. split; reflexivity.
  - (* the same samples in the other order *)
    pose proof (use_point_keeps_shortest AnnexF.atan2 AnnexF.hypot TYPE_32FC1
                  (Examples.converter 2)
                  (Examples.column32
                     [Examples.metres 1 0; Examples.metres 2 0])
                  (Examples.camera (dec 175 2))
                  (Examples.scan (dec (-5) 1) (dec 1 1) 1) 2)
      as (_ & _ & _ & Hc').
    refine (Hc' {| st_ranges := [Examples.metres 1 0];
                   st_log :=
                     [{| ev_v := 0; ev_u := 0; ev_index := 0;
                         ev_r := Examples.metres 1 0; ev_used := true |};
                      {| ev_v := 1; ev_u := 0; ev_index := 0;
                         ev_r := Examples.metres 2 0; ev_used := false |}] |}
              0 pinf (Examples.metres 1 0) (Examples.metres 2 0)
              (Examples.metres 1 0) (Examples.metres 2 0)
              _ _ _ _ _ _ _ _); try (vm_compute; reflexivity).
    left. split; reflexivity.
Defined.

(** ** Invalid samples *)

(** The candidate of an invalid sample is the sample itself: NaN or an
    infinity, which no window accepts, or 0 m, which a window accepts only
    when [range_min] is negative. *)
Lemma invalid_not_in_range enc (d : T enc) range_min range_max :
  (enc = TYPE_16UC1 -> SFltb range_min (S754_zero false) = false) ->
  DepthTraits.valid enc d = false ->
  in_range (to_float (as_double enc d)) range_min range_max = false.
Proof.
  intros Hmin Hd. destruct enc; cbn in *.
  - apply negb_false_iff, Z.eqb_eq in Hd. subst d. cbn.
    unfold in_range. rewrite (Hmin eq_refl). reflexivity.
  - apply not_finite_not_in_range.
    destruct d; cbn in *; congruence.
Qed.

Lemma candidate_invalid hypot enc cam_model u (d : T enc) :
  DepthTraits.valid enc d = false ->
  candidate hypot enc cam_model u d = as_double enc d.
Proof. unfold candidate. intros ->. reflexivity. Qed.

(** C7, as the code and the modelled [use_point] have it. With a
    [range_min] that is not negative when the samples are integers, an
    invalid sample (0 for the integer encoding, NaN or an infinity for the
    float encoding) is never written into its bin and never stops the
    loop: the loop body returns normally with the vector unchanged; and a
    bin that receives only invalid or out-of-range candidates over the
    whole window holds after the run the value it held before. *)
Theorem invalid_sample_ignored
    atan2 hypot enc self (depth_msg : Image enc) cam_model scan_msg
    scan_height :
  (enc = TYPE_16UC1 ->
   SFltb (range_min scan_msg) (S754_zero false) = false) ->
  (forall v u depth_row st d index old,
     at_index (data depth_msg) (depth_row + u) = Some d ->
     DepthTraits.valid enc d = false ->
     to_int (index_float atan2 enc cam_model scan_msg u) = Some index ->
     at_index (st_ranges st) index = Some old ->
     pixel atan2 hypot enc depth_msg cam_model scan_msg v u depth_row st
     = (Ok tt,
        {| st_ranges := st_ranges st;
           st_log := st_log st ++
             [{| ev_v := v; ev_u := u; ev_index := index;
                 ev_r := to_float (as_double enc d); ev_used := false |}] |}))
  /\ (forall offset index,
        to_int (offset_float cam_model scan_height) = Some offset ->
        image_well_formed enc depth_msg ->
        window_in_image enc self depth_msg offset ->
        bins_in_scan atan2 enc depth_msg cam_model scan_msg ->
        (forall v u d,
           (v, u) ∈ window_pixels enc self depth_msg offset ->
           at_index (data depth_msg) (v * row_step enc depth_msg + u)
           = Some d ->
           to_int (index_float atan2 enc cam_model scan_msg u) = Some index ->
           DepthTraits.valid enc d = false
           \/ in_range (to_float (candidate hypot enc cam_model u d))
                (range_min scan_msg) (range_max scan_msg) = false) ->
        exists st',
          convert atan2 hypot enc self depth_msg cam_model scan_msg
            scan_height = (Ok tt, st')
          /\ at_index (st_ranges st') index
             = at_index (ranges scan_msg) index).
Proof.
  intros Hmin. split.
  - intros v u depth_row st d index old Hd Hv Hi Hold.
    rewrite pixel_spec, Hd, Hi, Hold. cbv zeta.
    rewrite (candidate_invalid _ _ _ _ _ Hv).
    assert (use_point (to_float (as_double enc d)) old (range_min scan_msg)
              (range_max scan_msg) = false) as Hu.
    { unfold use_point.
      rewrite (invalid_not_in_range enc d _ _ Hmin Hv). reflexivity. }
    unfold store. cbn [fst snd]. rewrite Hold, Hu. reflexivity.
  - intros offset index Hoff Himg Hwin Hbins Hcands.
    destruct (convert_completes atan2 hypot enc self depth_msg cam_model
                scan_msg scan_height offset Hoff Himg Hwin Hbins)
      as (st' & Hrun & Hall).
    exists st'. split; [exact Hrun|].
    destruct (at_index (ranges scan_msg) index) as [old|] eqn:Hold.
    + rewrite (convert_bin _ _ _ _ _ _ _ _ _ _ _ _ Hrun Hold). f_equal.
      apply bin_value_unchanged. intros x Hx.
      destruct (logged_candidate _ _ _ _ _ _ _ _ _ _ _ _ Hrun Hx)
        as (e & d & He & Hd & Hi & ->).
      assert ((ev_v e, ev_u e) ∈ window_pixels enc self depth_msg offset)
        as Hin.
      { rewrite <- Hall. apply list_elem_of_fmap. exists e. auto. }
      destruct (Hcands _ _ _ Hin Hd Hi) as [Hv|Hr]; [|exact Hr].
      rewrite (candidate_invalid _ _ _ _ _ Hv).
      apply invalid_not_in_range; assumption.
    + apply convert_inv in Hrun as (Hrs & _).
      apply at_index_None. apply at_index_None in Hold.
      rewrite Hrs, process_length. exact Hold.
Qed.

Lemma invalid_sample_ignored_witness :
  exists st',
    convert AnnexF.atan2 AnnexF.hypot TYPE_16UC1 (Examples.converter 2)
      (Examples.column16 [0; 20000]) (Examples.camera (dec 175 2))
      (Examples.scan (dec (-5) 1) (dec 1 1) 1) 2 = (Ok tt, st')
    /\ at_index (st_ranges st') 0 = Some pinf.
Proof.
  refine (proj2 (invalid_sample_ignored AnnexF.atan2 AnnexF.hypot TYPE_16UC1
                   (Examples.converter 2) (Examples.column16 [0; 20000])
                   (Examples.camera (dec 175 2))
                   (Examples.scan (dec (-5) 1) (dec 1 1) 1) 2 _)
            0 0 _ _ _ _ _).
  - intros _. vm_compute. reflexivity.
  - vm_compute. reflexivity.
  - by_evaluation.
  - by_evaluation.
  - intros u Hu. assert (u = 0) as -> by (cbn in Hu; lia).
    exists 0. split; [vm_compute; reflexivity|cbn; lia].
  - intros v u d [Hv Hu]%elem_of_window_pixels.
    assert (u = 0) as -> by (cbn in Hu; lia).
    assert (v = 0 \/ v = 1) as [-> | ->] by (cbn in Hv; lia).
    + intros [= <-] _. left. reflexivity.
    + intros [= <-] _. right. vm_compute. reflexivity.
Defined.

(** C7, as the document has it, fails for the integer encoding when
    [range_min] is negative: the invalid sample 0 offers the candidate
    0 m, which lies strictly between -1 m and 10 m, and is written into
    the bin that held the no-reading value. *)
Lemma zero_sample_stored :
  DepthTraits.valid TYPE_16UC1 0 = false
  /\ ranges (Examples.scan (dec (-5) 1) (dec (-1) 0) 1) = [pinf]
  /\ convert AnnexF.atan2 AnnexF.hypot TYPE_16UC1 (Examples.converter 1)
       (Examples.column16 [0]) (Examples.camera (dec 0 0))
       (Examples.scan (dec (-5) 1) (dec (-1) 0) 1) 1
     = (Ok tt,
        {| st_ranges := [S754_zero false];
           st_log := [{| ev_v := 0; ev_u := 0; ev_index := 0;
                         ev_r := S754_zero false; ev_used := true |}] |}).
Proof. repeat split; vm_compute; reflexivity. Qed.

(** ** The candidate range *)

Lemma mul_zero_finite prec emax x y :
  is_zero x = true -> isfinite y = true ->
  is_zero (SFmul prec emax x y) = true.
Proof. destruct x, y; cbn; congruence. Qed.

Lemma SFabs_nonneg z : sign_bit z = false -> SFabs z = z.
Proof. destruct z; cbn; congruence. Qed.

(** A bin that held no reading and is offered one candidate in range,
    whatever else it is offered, holds that candidate. *)
Lemma bin_value_single range_min range_max rs old x :
  x ∈ rs ->
  in_range x range_min range_max = true ->
  in_range old range_min range_max = false ->
  (forall y, y ∈ rs -> in_range y range_min range_max = true -> y = x) ->
  bin_value range_min range_max old rs = x.
Proof.
  intros Hx Hr Hold Hone.
  destruct (bin_value_least range_min range_max rs old x Hx Hr) as [Hres _].
  destruct (bin_value_origin range_min range_max rs old) as [E|[Hin Hin_r]].
  - rewrite E in Hres. congruence.
  - apply Hone; assumption.
Qed.

(** On the column of the principal point the candidate of a valid sample
    is the magnitude of its depth. *)
Lemma candidate_on_axis hypot enc cam_model u (d : T enc) :
  (forall x z, is_zero x = true -> hypot x z = SFabs z) ->
  DepthTraits.valid enc d = true ->
  is_zero (F32.sub (F32.of_Z u) (center_x cam_model)) = true ->
  isfinite (as_float enc d) = true ->
  isfinite (constant_x enc cam_model) = true ->
  candidate hypot enc cam_model u d = SFabs (DepthTraits.toMeters enc d).
Proof.
  intros Hhypot Hv Hcol Hdf Hcf. unfold candidate. rewrite Hv. cbv zeta.
  apply Hhypot.
  unfold lateral, to_double, F64.round, fmt_round.
  pose proof (mul_zero_finite F32.prec F32.emax _ _
                (mul_zero_finite F32.prec F32.emax _ _ Hcol Hdf) Hcf)
    as Hz.
  unfold F32.mul.
  destruct (SFmul F32.prec F32.emax _ (constant_x enc cam_model));
    try discriminate.
  reflexivity.
Qed.

(** C3, as the code and the modelled [DepthTraits] and [use_point] have
    it. The candidate that a processed pixel with a valid sample offers to
    the reduction is [hypot(x, z)], converted to [float], with
    [x = (u - center_x) * depth * constant_x] computed in [float] and
    [z = toMeters(depth)].  Hence, with a [hypot] that is [fabs] of its
    second argument when the first is zero: let [(v0, u0)] be a pixel of
    the window of a completed conversion whose column [u0] lies exactly
    at the principal point ([u0 - center_x] is zero, the camera having a
    finite [constant_x]), whose sample is valid (and finite as a [float],
    as every [uint16_t] is) and whose range is in the acceptance window,
    and let it be the single such pixel of its bin: every other pixel of
    the window with that bin offers a candidate that is not in range.
    Then the bin, which held no reading, holds after the run the
    magnitude of [toMeters(depth)] as a [float]: [toMeters(depth)] itself
    when the depth is not negative. *)
Theorem candidate_is_planar_range
    atan2 hypot enc self (depth_msg : Image enc) cam_model scan_msg
    scan_height :
  (forall o st',
     convert atan2 hypot enc self depth_msg cam_model scan_msg scan_height
     = (o, st') ->
     forall e, e ∈ st_log st' ->
       exists d,
         at_index (data depth_msg)
           (ev_v e * row_step enc depth_msg + ev_u e) = Some d
         /\ (DepthTraits.valid enc d = true ->
             let x :=
               to_double
                 (F32.mul (F32.mul (F32.sub (F32.of_Z (ev_u e))
                                            (to_float (cx cam_model)))
                                   (as_float enc d))
                          (constant_x enc cam_model)) in
             let z := DepthTraits.toMeters enc d in
             ev_r e = to_float (hypot x z)))
  /\ (forall offset index v0 u0 d old,
        (forall x z, is_zero x = true -> hypot x z = SFabs z) ->
        to_int (offset_float cam_model scan_height) = Some offset ->
        image_well_formed enc depth_msg ->
        window_in_image enc self depth_msg offset ->
        bins_in_scan atan2 enc depth_msg cam_model scan_msg ->
        (v0, u0) ∈ window_pixels enc self depth_msg offset ->
        at_index (data depth_msg) (v0 * row_step enc depth_msg + u0)
        = Some d ->
        DepthTraits.valid enc d = true ->
        is_zero (F32.sub (F32.of_Z u0) (to_float (cx cam_model))) = true ->
        isfinite (as_float enc d) = true ->
        isfinite (constant_x enc cam_model) = true ->
        to_int (index_float atan2 enc cam_model scan_msg u0) = Some index ->
        at_index (ranges scan_msg) index = Some old ->
        in_range old (range_min scan_msg) (range_max scan_msg) = false ->
        in_range (to_float (SFabs (DepthTraits.toMeters enc d)))
          (range_min scan_msg) (range_max scan_msg) = true ->
        (forall v u d',
           (v, u) ∈ window_pixels enc self depth_msg offset ->
           (v, u) <> (v0, u0) ->
           at_index (data depth_msg) (v * row_step enc depth_msg + u)
           = Some d' ->
           to_int (index_float atan2 enc cam_model scan_msg u) = Some index ->
           in_range (to_float (candidate hypot enc cam_model u d'))
             (range_min scan_msg) (range_max scan_msg) = false) ->
        exists st',
          convert atan2 hypot enc self depth_msg cam_model scan_msg
            scan_height = (Ok tt, st')
          /\ at_index (st_ranges st') index
             = Some (to_float (SFabs (DepthTraits.toMeters enc d)))
          /\ (sign_bit (DepthTraits.toMeters enc d) = false ->
              at_index (st_ranges st') index
              = Some (to_float (DepthTraits.toMeters enc d)))).
Proof.
  split.
  - intros o st' Hrun e He.
    apply convert_inv in Hrun as (_ & Hok & _).
    rewrite Forall_forall in Hok.
    destruct (Hok e He) as (d & Hd & _ & Hr & _).
    exists d. split; [exact Hd|]. intros Hv. cbv zeta.
    rewrite Hr. unfold candidate. rewrite Hv. reflexivity.
  - intros offset index v0 u0 d old Hhypot Hoff Himg Hwin Hbins Hpix0 Hd Hv
      Hcol Hdf Hcf Hi Hold Hno Hin Hsingle.
    destruct (convert_completes atan2 hypot enc self depth_msg cam_model
                scan_msg scan_height offset Hoff Himg Hwin Hbins)
      as (st' & Hrun & Hall).
    pose proof (candidate_on_axis hypot enc cam_model u0 d Hhypot Hv Hcol
                  Hdf Hcf) as Hcand.
    assert (at_index (st_ranges st') index
            = Some (to_float (SFabs (DepthTraits.toMeters enc d)))) as Hres.
    { rewrite (convert_bin _ _ _ _ _ _ _ _ _ _ _ _ Hrun Hold). f_equal.
      apply bin_value_single; [|exact Hin|exact Hno|].
      - rewrite <- Hcand.
        eapply candidate_logged; [exact Hrun| |exact Hd|exact Hi].
        rewrite Hall. exact Hpix0.
      - intros y Hy Hyr.
        destruct (logged_candidate _ _ _ _ _ _ _ _ _ _ _ _ Hrun Hy)
          as (e & d' & He & Hd' & Hi' & ->).
        destruct (decide ((ev_v e, ev_u e) = (v0, u0))) as [[= Hev Heu]|Hne].
        + rewrite Hev, Heu in *.
          assert (d' = d) as -> by congruence.
          rewrite Hcand. reflexivity.
        + assert ((ev_v e, ev_u e)
                    ∈ window_pixels enc self depth_msg offset) as Hpix.
          { rewrite <- Hall. apply list_elem_of_fmap. exists e. auto. }
          rewrite (Hsingle _ _ _ Hpix Hne Hd' Hi') in Hyr. discriminate. }
    exists st'. split; [exact Hrun|]. split; [exact Hres|].
    intros Hs. rewrite Hres, (SFabs_nonneg _ Hs). reflexivity.
Qed.

Lemma candidate_is_planar_range_witness :
  exists st',
    convert AnnexF.atan2 AnnexF.hypot TYPE_16UC1 (Examples.converter 3)
      (Examples.column16 [0; 1500; 20000]) (Examples.camera (dec 15 1))
      (Examples.scan (dec (-5) 1) (dec 1 1) 1) 3 = (Ok tt, st')
    /\ at_index (st_ranges st') 0
       = Some (to_float (SFabs (DepthTraits.toMeters TYPE_16UC1 1500)))
    /\ (sign_bit (DepthTraits.toMeters TYPE_16UC1 1500) = false ->
        at_index (st_ranges st') 0
        = Some (to_float (DepthTraits.toMeters TYPE_16UC1 1500))).
Proof.
  refine (proj2 (candidate_is_planar_range AnnexF.atan2 AnnexF.hypot
                   TYPE_16UC1 (Examples.converter 3)
                   (Examples.column16 [0; 1500; 20000])
                   (Examples.camera (dec 15 1))
                   (Examples.scan (dec (-5) 1) (dec 1 1) 1) 3)
            0 0 1 0 1500 pinf _ _ _ _ _ _ _ _ _ _ _ _ _ _ _ _).
  - intros x z Hx. destruct x; try discriminate. reflexivity.
  - vm_compute. reflexivity.
  - by_evaluation.
  - by_evaluation.
  - intros u Hu. assert (u = 0) as -> by (cbn in Hu; lia).
    exists 0. split; [vm_compute; reflexivity|cbn; lia].
  - apply elem_of_window_pixels. cbn. lia.
  - vm_compute. reflexivity.
  - vm_compute. reflexivity.
  - vm_compute. reflexivity.
  - vm_compute. reflexivity.
  - vm_compute. reflexivity.
  - vm_compute. reflexivity.
  - vm_compute. reflexivity.
  - vm_compute. reflexivity.
  - vm_compute. reflexivity.
  - intros v u d' [Hv Hu]%elem_of_window_pixels Hne.
    assert (u = 0) as -> by (cbn in Hu; lia).
    assert (v = 0 \/ v = 2) as [-> | ->].
    { cbn in Hv. destruct (decide (v = 1)) as [->|]; [contradiction|lia]. }
    + intros [= <-] _. vm_compute. reflexivity.
    + intros [= <-] _. vm_compute. reflexivity.
Defined.

(** C3, as the document has it, fails for a negative sample of the float
    encoding: the sample -2 m is valid and, the window being (-5 m, 10 m),
    in range; on the optical axis its candidate is [hypot(0, -2) = 2], so
    the bin holds 2 m after the run and not [toMeters(depth) = -2]. *)
Lemma negative_depth_stored_positive :
  DepthTraits.valid TYPE_32FC1 (SFopp (Examples.metres 2 0)) = true
  /\ DepthTraits.toMeters TYPE_32FC1 (SFopp (Examples.metres 2 0))
     = dec (-2) 0
  /\ in_range (to_float (dec (-2) 0))
       (range_min (Examples.scan (dec (-5) 1) (dec (-5) 0) 1))
       (range_max (Examples.scan (dec (-5) 1) (dec (-5) 0) 1)) = true
  /\ convert AnnexF.atan2 AnnexF.hypot TYPE_32FC1 (Examples.converter 1)
       (Examples.column32 [SFopp (Examples.metres 2 0)])
       (Examples.camera (dec 0 0))
       (Examples.scan (dec (-5) 1) (dec (-5) 0) 1) 1
     = (Ok tt,
        {| st_ranges := [to_float (dec 2 0)];
           st_log := [{| ev_v := 0; ev_u := 0; ev_index := 0;
                         ev_r := to_float (dec 2 0); ev_used := true |}] |})
  /\ SFeqb (to_float (dec 2 0)) (to_float (dec (-2) 0)) = false.
Proof. repeat split; vm_compute; reflexivity. Qed.

(** ** Taller windows *)

Lemma at_index_elem_of {A} (l : list A) i x : at_index l i = Some x -> x ∈ l.
Proof.
  unfold at_index. destruct (0 <=? i); [|discriminate].
  apply list_elem_of_lookup_2.
Qed.

(** Two completed runs on the same image, camera and scan, the second
    over a window that has the row of the first. *)
Lemma completed_runs_not_farther
    atan2 hypot enc self1 selfN (depth_msg : Image enc) cam_model scan_msg
    N o1 oN st1 stN sentinel :
  scan_height_ self1 = 1 ->
  scan_height_ selfN = N ->
  isfinite sentinel = false ->
  Forall (λ x, x = sentinel) (ranges scan_msg) ->
  to_int (offset_float cam_model 1) = Some o1 ->
  to_int (offset_float cam_model N) = Some oN ->
  oN <= o1 < oN + N ->
  convert atan2 hypot enc self1 depth_msg cam_model scan_msg 1
  = (Ok tt, st1) ->
  convert atan2 hypot enc selfN depth_msg cam_model scan_msg N
  = (Ok tt, stN) ->
  forall i a b,
    at_index (st_ranges stN) i = Some a ->
    at_index (st_ranges st1) i = Some b ->
    range_le sentinel a b.
Proof.
  intros Hh1 HhN Hs Hinit Ho1 HoN Hrow Hrun1 HrunN i a b Ha Hb.
  pose proof (not_finite_not_in_range (range_min scan_msg)
                (range_max scan_msg) sentinel Hs) as Hsent.
  (* the bin before the runs *)
  assert (at_index (ranges scan_msg) i = Some sentinel) as Hold.
  { pose proof Hrun1 as (Hrs & _)%convert_inv.
    apply at_index_Some in Hb. rewrite Hrs, process_length in Hb.
    destruct (at_index_is_Some _ _ Hb) as [old Hold]. rewrite Hold.
    rewrite Forall_forall in Hinit.
    rewrite (Hinit old (at_index_elem_of _ _ _ Hold)). reflexivity. }
  rewrite (convert_bin _ _ _ _ _ _ _ _ _ _ _ _ Hrun1 Hold) in Hb.
  rewrite (convert_bin _ _ _ _ _ _ _ _ _ _ _ _ HrunN Hold) in Ha.
  injection Ha as <-. injection Hb as <-.
  destruct (bin_value_origin (range_min scan_msg) (range_max scan_msg)
              (candidates_of i (ev_cand <$> st_log st1)) sentinel)
    as [E|[Hin Hr]]; [left; exact E|].
  right.
  (* the reading of the first run is a candidate of the second *)
  destruct (logged_candidate _ _ _ _ _ _ _ _ _ _ _ _ Hrun1 Hin)
    as (e & d & He & Hd & Hi & Hx).
  pose proof Hrun1 as (_ & _ & _ & Hall1)%convert_inv.
  destruct (Hall1 eq_refl) as (o1' & Ho1' & _ & Hpix1).
  assert (o1' = o1) as -> by congruence.
  pose proof HrunN as (_ & _ & _ & HallN)%convert_inv.
  destruct (HallN eq_refl) as (oN' & HoN' & _ & HpixN).
  assert (oN' = oN) as -> by congruence.
  assert ((ev_v e, ev_u e) ∈ ev_pixel <$> st_log stN) as HinN.
  { assert ((ev_v e, ev_u e) ∈ ev_pixel <$> st_log st1) as Hin1.
    { apply list_elem_of_fmap. exists e. auto. }
    rewrite Hpix1 in Hin1. rewrite HpixN.
    apply elem_of_loop_pixels in Hin1. apply elem_of_loop_pixels. lia. }
  pose proof (candidate_logged _ _ _ _ _ _ _ _ _ _ _ _ _ _ HrunN HinN Hd Hi)
    as HcN.
  rewrite <- Hx in HcN.
  destruct (bin_value_least (range_min scan_msg) (range_max scan_msg)
              _ sentinel _ HcN Hr) as [HaR Hlt].
  split; [intros E; rewrite E in HaR; congruence|].
  apply SFleb_of_not_ltb; [| |exact Hlt];
    eapply in_range_not_nan; eassumption.
Qed.

(** C9. Let the vector hold the no-reading value [sentinel] (an infinity
    or NaN) in every bin.  Let the conversion run once with
    [scan_height = 1] and once with [scan_height = N >= 1] around the same
    row (the row of the first run is one of the rows of the second, which
    lie in the image), on the same image, camera and scan, every column
    having its bin in the vector.  Then both runs complete, and every bin
    of the second is not farther than the same bin of the first: under the
    order in which [sentinel] is the largest,
    [result_N[i] <= result_1[i]]. *)
Theorem taller_window_not_farther
    atan2 hypot enc self1 selfN (depth_msg : Image enc) cam_model scan_msg
    N o1 oN sentinel :
  1 <= N ->
  scan_height_ self1 = 1 ->
  scan_height_ selfN = N ->
  isfinite sentinel = false ->
  Forall (λ x, x = sentinel) (ranges scan_msg) ->
  to_int (offset_float cam_model 1) = Some o1 ->
  to_int (offset_float cam_model N) = Some oN ->
  oN <= o1 < oN + N ->
  image_well_formed enc depth_msg ->
  window_in_image enc selfN depth_msg oN ->
  bins_in_scan atan2 enc depth_msg cam_model scan_msg ->
  exists st1 stN,
    convert atan2 hypot enc self1 depth_msg cam_model scan_msg 1
    = (Ok tt, st1)
    /\ convert atan2 hypot enc selfN depth_msg cam_model scan_msg N
       = (Ok tt, stN)
    /\ forall i, 0 <= i < Z.of_nat (length (ranges scan_msg)) ->
         exists a b,
           at_index (st_ranges stN) i = Some a
           /\ at_index (st_ranges st1) i = Some b
           /\ range_le sentinel a b.
Proof.
  intros HN Hh1 HhN Hs Hinit Ho1 HoN Hrow Himg HwinN Hbins.
  assert (window_in_image enc self1 depth_msg o1) as Hwin1.
  { destruct HwinN as [H0 Hh]. unfold window_in_image, INT_MIN in *.
    rewrite Hh1. rewrite HhN in Hh. lia. }
  destruct (convert_completes atan2 hypot enc self1 depth_msg cam_model
              scan_msg 1 o1 Ho1 Himg Hwin1 Hbins) as (st1 & Hrun1 & _).
  destruct (convert_completes atan2 hypot enc selfN depth_msg cam_model
              scan_msg N oN HoN Himg HwinN Hbins) as (stN & HrunN & _).
  exists st1, stN. split; [exact Hrun1|]. split; [exact HrunN|].
  intros i Hi.
  pose proof Hrun1 as (Hrs1 & _)%convert_inv.
  pose proof HrunN as (HrsN & _)%convert_inv.
  destruct (at_index_is_Some (st_ranges stN) i) as [a Ha].
  { rewrite HrsN, process_length. exact Hi. }
  destruct (at_index_is_Some (st_ranges st1) i) as [b Hb].
  { rewrite Hrs1, process_length. exact Hi. }
  exists a, b. split; [exact Ha|]. split; [exact Hb|].
  exact (completed_runs_not_farther atan2 hypot enc self1 selfN depth_msg
           cam_model scan_msg N o1 oN st1 stN sentinel Hh1 HhN Hs Hinit
           Ho1 HoN Hrow Hrun1 HrunN i a b Ha Hb).
Qed.

Lemma taller_window_not_farther_witness :
  exists st1 stN,
    convert AnnexF.atan2 AnnexF.hypot TYPE_32FC1 (Examples.converter 1)
      (Examples.column32
         [Examples.metres 3 0; Examples.metres 2 0; Examples.metres 1 0])
      (Examples.camera (dec 15 1)) (Examples.scan (dec (-5) 1) (dec 1 1) 1) 1
    = (Ok tt, st1)
    /\ convert AnnexF.atan2 AnnexF.hypot TYPE_32FC1 (Examples.converter 3)
         (Examples.column32
            [Examples.metres 3 0; Examples.metres 2 0; Examples.metres 1 0])
         (Examples.camera (dec 15 1)) (Examples.scan (dec (-5) 1) (dec 1 1) 1)
         3
       = (Ok tt, stN)
    /\ at_index (st_ranges st1) 0 = Some (Examples.metres 2 0)
    /\ at_index (st_ranges stN) 0 = Some (Examples.metres 1 0)
    /\ range_le pinf (Examples.metres 1 0) (Examples.metres 2 0).
Proof.
  destruct (taller_window_not_farther AnnexF.atan2 AnnexF.hypot TYPE_32FC1
              (Examples.converter 1) (Examples.converter 3)
              (Examples.column32
                 [Examples.metres 3 0; Examples.metres 2 0;
                  Examples.metres 1 0])
              (Examples.camera (dec 15 1))
              (Examples.scan (dec (-5) 1) (dec 1 1) 1) 3 1 0 pinf)
    as (st1 & stN & Hrun1 & HrunN & Hle).
  - lia.
  - reflexivity.
  - reflexivity.
  - reflexivity.
  - repeat constructor.
  - vm_compute. reflexivity.
  - vm_compute. reflexivity.
  - lia.
  - by_evaluation.
  - by_evaluation.
  - intros u Hu. assert (u = 0) as -> by (cbn in Hu; lia).
    exists 0. split; [vm_compute; reflexivity|cbn; lia].
  - exists st1, stN. split; [exact Hrun1|]. split; [exact HrunN|].
    destruct (Hle 0) as (a & b & Ha & Hb & Hab); [cbn; lia|].
    assert (st1 = {| st_ranges := [Examples.metres 2 0];
                     st_log := [{| ev_v := 1; ev_u := 0; ev_index := 0;
                                   ev_r := Examples.metres 2 0;
                                   ev_used := true |}] |}) as E1.
    { vm_compute in Hrun1. injection Hrun1 as <-. reflexivity. }
    assert (st_ranges stN = [Examples.metres 1 0]) as EN.
    { vm_compute in HrunN. injection HrunN as <-. reflexivity. }
    rewrite E1 in Hb. rewrite EN in Ha. cbn in Ha, Hb.
    injection Ha as <-. injection Hb as <-.
    rewrite E1, EN. repeat split. exact Hab.
Defined.

(** * Further properties of [convert] *)

Section MoreRuns.
Variables atan2 hypot : double -> double -> double.
Variable enc : encoding.
Variable self : DepthImageToLaserScan.
Variable depth_msg : Image enc.
Variable cam_model : PinholeCameraModel.
Variable scan_msg : LaserScan.
Variable scan_height : Z.

#[local] Abbreviation convert_ :=
  (convert atan2 hypot enc self depth_msg cam_model scan_msg scan_height).

(** A run whose first row is undefined has touched nothing. *)
Lemma convert_undefined_offset :
  to_int (offset_float cam_model scan_height) = None ->
  convert_ = (Ub FloatToIntUndefined, initial_state scan_msg).
Proof. intros H. rewrite convert_offset, H. reflexivity. Qed.

(** Every logged pixel is a pixel of the window. *)
Lemma logged_in_window o st' e :
  convert_ = (o, st') -> e ∈ st_log st' ->
  exists offset,
    to_int (offset_float cam_model scan_height) = Some offset
    /\ offset <= ev_v e < offset + scan_height_ self
    /\ 0 <= ev_u e < width depth_msg.
Proof.
  intros Hrun He.
  destruct (to_int (offset_float cam_model scan_height)) as [offset|] eqn:Ho.
  - exists offset. split; [reflexivity|].
    apply convert_inv in Hrun as (_ & _ & Hpre & _).
    apply (elem_of_window_pixels enc depth_msg self offset).
    apply loop_pixels_in_window.
    eapply elem_of_prefix; [|exact (Hpre offset Ho)].
    apply list_elem_of_fmap. exists e. auto.
  - rewrite (convert_undefined_offset Ho) in Hrun. injection Hrun as _ <-.
    inversion He.
Qed.

(** No run changes the number of bins. *)
Lemma convert_length o st' :
  convert_ = (o, st') -> length (st_ranges st') = length (ranges scan_msg).
Proof. intros (-> & _)%convert_inv. apply process_length. Qed.

(** The bins outside the vector stay outside. *)
Lemma convert_bin_None o st' i :
  convert_ = (o, st') ->
  at_index (ranges scan_msg) i = None -> at_index (st_ranges st') i = None.
Proof.
  intros Hrun Hi. apply at_index_None. apply at_index_None in Hi.
  rewrite (convert_length _ _ Hrun). exact Hi.
Qed.

End MoreRuns.

(** X1. Whatever its outcome, a run of [convert] leaves
    [scan_msg->ranges] with the number of bins it had: the vector is
    written in place and never resized. *)
Theorem ranges_never_resized
    atan2 hypot enc self (depth_msg : Image enc) cam_model scan_msg
    scan_height :
  length
    (st_ranges
       (convert atan2 hypot enc self depth_msg cam_model scan_msg
          scan_height).2)
  = length (ranges scan_msg).
Proof.
  destruct (convert _ _ _ _ _ _ _ _) as [o st'] eqn:Hrun.
  exact (convert_length _ _ _ _ _ _ _ _ _ _ Hrun).
Qed.

(** X2. A bin that no column of the image is mapped to holds after any
    run, completed or not, what it held before. *)
Theorem unmapped_bin_untouched
    atan2 hypot enc self (depth_msg : Image enc) cam_model scan_msg
    scan_height i :
  (forall u, 0 <= u < width depth_msg ->
     to_int (index_float atan2 enc cam_model scan_msg u) <> Some i) ->
  at_index
    (st_ranges
       (convert atan2 hypot enc self depth_msg cam_model scan_msg
          scan_height).2) i
  = at_index (ranges scan_msg) i.
Proof.
  intros Hnone.
  destruct (convert _ _ _ _ _ _ _ _) as [o st'] eqn:Hrun. cbn [snd].
  destruct (at_index (ranges scan_msg) i) as [old|] eqn:Hold.
  - rewrite (convert_bin _ _ _ _ _ _ _ _ _ _ _ _ Hrun Hold). f_equal.
    destruct (candidates_of i (ev_cand <$> st_log st')) as [|x l] eqn:Hc;
      [reflexivity|exfalso].
    assert (x ∈ candidates_of i (ev_cand <$> st_log st')) as Hx
      by (rewrite Hc; left).
    destruct (logged_candidate _ _ _ _ _ _ _ _ _ _ _ _ Hrun Hx)
      as (e & d & He & _ & Hi & _).
    destruct (logged_in_window _ _ _ _ _ _ _ _ _ _ _ Hrun He)
      as (offset & _ & _ & Hu).
    exact (Hnone _ Hu Hi).
  - exact (convert_bin_None _ _ _ _ _ _ _ _ _ _ _ Hrun Hold).
Qed.

Lemma unmapped_bin_untouched_witness :
  at_index
    (st_ranges
       (convert AnnexF.atan2 AnnexF.hypot TYPE_32FC1 (Examples.converter 1)
          (Examples.column32 [Examples.metres 2 0]) (Examples.camera (dec 0 0))
          (set_ranges (Examples.scan (dec (-5) 1) (dec 1 1) 2)
             [pinf; Examples.metres 7 0]) 1).2) 1
  = Some (Examples.metres 7 0).
Proof.
  apply (unmapped_bin_untouched AnnexF.atan2 AnnexF.hypot TYPE_32FC1
           (Examples.converter 1) (Examples.column32 [Examples.metres 2 0])
           (Examples.camera (dec 0 0))
           (set_ranges (Examples.scan (dec (-5) 1) (dec 1 1) 2)
              [pinf; Examples.metres 7 0]) 1 1).
  intros u Hu. assert (u = 0) as -> by (cbn in Hu; lia).
  vm_compute. discriminate.
Defined.

(** X3. [convert] invents no range: after any run, completed or not, a
    bin holds either the value it held before or the candidate (line 210
    or 221, as a [float]) of a sample of the window whose column is mapped
    to that bin. *)
Theorem bin_holds_old_or_candidate
    atan2 hypot enc self (depth_msg : Image enc) cam_model scan_msg
    scan_height i x :
  at_index
    (st_ranges
       (convert atan2 hypot enc self depth_msg cam_model scan_msg
          scan_height).2) i = Some x ->
  at_index (ranges scan_msg) i = Some x
  \/ exists offset v u d,
       to_int (offset_float cam_model scan_height) = Some offset
       /\ offset <= v < offset + scan_height_ self
       /\ 0 <= u < width depth_msg
       /\ at_index (data depth_msg) (v * row_step enc depth_msg + u) = Some d
       /\ to_int (index_float atan2 enc cam_model scan_msg u) = Some i
       /\ x = to_float (candidate hypot enc cam_model u d).
Proof.
  destruct (convert _ _ _ _ _ _ _ _) as [o st'] eqn:Hrun. cbn [snd].
  intros Hx.
  destruct (at_index (ranges scan_msg) i) as [old|] eqn:Hold.
  2:{ rewrite (convert_bin_None _ _ _ _ _ _ _ _ _ _ _ Hrun Hold) in Hx.
      discriminate. }
  rewrite (convert_bin _ _ _ _ _ _ _ _ _ _ _ _ Hrun Hold) in Hx.
  injection Hx as <-.
  destruct (bin_value_origin (range_min scan_msg) (range_max scan_msg)
              (candidates_of i (ev_cand <$> st_log st')) old)
    as [->|[Hin Hr]]; [left; reflexivity|right].
  destruct (logged_candidate _ _ _ _ _ _ _ _ _ _ _ _ Hrun Hin)
    as (e & d & He & Hd & Hi & Hx).
  destruct (logged_in_window _ _ _ _ _ _ _ _ _ _ _ Hrun He)
    as (offset & Ho & Hv & Hu).
  exists offset, (ev_v e), (ev_u e), d. auto 10.
Qed.

Lemma bin_holds_old_or_candidate_witness :
  at_index [pinf] 0 = Some (Examples.metres 2 0)
  \/ exists offset v u d,
       to_int (offset_float (Examples.camera (dec 0 0)) 1) = Some offset
       /\ offset <= v < offset + 1
       /\ 0 <= u < 1
       /\ at_index [Examples.metres 2 0] (v * 1 + u) = Some d
       /\ to_int (index_float AnnexF.atan2 TYPE_32FC1
                    (Examples.camera (dec 0 0))
                    (Examples.scan (dec (-5) 1) (dec 1 1) 1) u) = Some 0
       /\ Examples.metres 2 0
          = to_float (candidate AnnexF.hypot TYPE_32FC1
                        (Examples.camera (dec 0 0)) u d).
Proof.
  apply (bin_holds_old_or_candidate AnnexF.atan2 AnnexF.hypot TYPE_32FC1
           (Examples.converter 1) (Examples.column32 [Examples.metres 2 0])
           (Examples.camera (dec 0 0))
           (Examples.scan (dec (-5) 1) (dec 1 1) 1) 1 0
           (Examples.metres 2 0)).
  vm_compute. reflexivity.
Defined.

(** X4. With [use_point] as modelled, a run writes readings only: a bin
    whose value a run has changed holds a value strictly between
    [range_min] and [range_max]. *)
Theorem changed_bin_in_range
    atan2 hypot enc self (depth_msg : Image enc) cam_model scan_msg
    scan_height i x :
  at_index
    (st_ranges
       (convert atan2 hypot enc self depth_msg cam_model scan_msg
          scan_height).2) i = Some x ->
  at_index (ranges scan_msg) i <> Some x ->
  in_range x (range_min scan_msg) (range_max scan_msg) = true.
Proof.
  destruct (convert _ _ _ _ _ _ _ _) as [o st'] eqn:Hrun. cbn [snd].
  intros Hx Hne.
  destruct (at_index (ranges scan_msg) i) as [old|] eqn:Hold.
  2:{ rewrite (convert_bin_None _ _ _ _ _ _ _ _ _ _ _ Hrun Hold) in Hx.
      discriminate. }
  rewrite (convert_bin _ _ _ _ _ _ _ _ _ _ _ _ Hrun Hold) in Hx.
  injection Hx as <-.
  destruct (bin_value_origin (range_min scan_msg) (range_max scan_msg)
              (candidates_of i (ev_cand <$> st_log st')) old)
    as [E|[_ Hr]]; [|exact Hr].
  rewrite E in Hne. contradiction.
Qed.

Lemma changed_bin_in_range_witness :
  in_range (Examples.metres 2 0) (Examples.metres 1 1) (Examples.metres 10 0)
  = true.
Proof.
  apply (changed_bin_in_range AnnexF.atan2 AnnexF.hypot TYPE_32FC1
           (Examples.converter 1) (Examples.column32 [Examples.metres 2 0])
           (Examples.camera (dec 0 0))
           (Examples.scan (dec (-5) 1) (dec 1 1) 1) 1 0
           (Examples.metres 2 0)).
  - vm_compute. reflexivity.
  - vm_compute. discriminate.
Defined.

(** X5. A run never makes a reading longer: a bin that held a value
    strictly between [range_min] and [range_max] before the run holds
    after it, whatever the outcome, such a value again, and one that is
    not larger. *)
Theorem reading_never_longer
    atan2 hypot enc self (depth_msg : Image enc) cam_model scan_msg
    scan_height i old :
  at_index (ranges scan_msg) i = Some old ->
  in_range old (range_min scan_msg) (range_max scan_msg) = true ->
  exists x,
    at_index
      (st_ranges
         (convert atan2 hypot enc self depth_msg cam_model scan_msg
            scan_height).2) i = Some x
    /\ in_range x (range_min scan_msg) (range_max scan_msg) = true
    /\ SFleb x old = true.
Proof.
  intros Hold Hr.
  destruct (convert _ _ _ _ _ _ _ _) as [o st'] eqn:Hrun. cbn [snd].
  rewrite (convert_bin _ _ _ _ _ _ _ _ _ _ _ _ Hrun Hold).
  eexists. split; [reflexivity|].
  pose proof (bin_value_in_range (range_min scan_msg) (range_max scan_msg)
                (candidates_of i (ev_cand <$> st_log st')) old Hr) as Hin.
  split; [exact Hin|].
  apply SFleb_of_not_ltb.
  - eapply in_range_not_nan; exact Hin.
  - eapply in_range_not_nan; exact Hr.
  - apply bin_value_below; [exact Hr|apply SFltb_irrefl].
Qed.

Lemma reading_never_longer_witness :
  exists x,
    at_index
      (st_ranges
         (convert AnnexF.atan2 AnnexF.hypot TYPE_32FC1 (Examples.converter 2)
            (Examples.column32 [Examples.metres 5 0; Examples.metres 4 0])
            (Examples.camera (dec 175 2))
            (set_ranges (Examples.scan (dec (-5) 1) (dec 1 1) 1)
               [Examples.metres 45 1]) 2).2) 0 = Some x
    /\ in_range x (Examples.metres 1 1) (Examples.metres 10 0) = true
    /\ SFleb x (Examples.metres 45 1) = true.
Proof.
  apply (reading_never_longer AnnexF.atan2 AnnexF.hypot TYPE_32FC1
           (Examples.converter 2)
           (Examples.column32 [Examples.metres 5 0; Examples.metres 4 0])
           (Examples.camera (dec 175 2))
           (set_ranges (Examples.scan (dec (-5) 1) (dec 1 1) 1)
              [Examples.metres 45 1]) 2 0 (Examples.metres 45 1));
    vm_compute; reflexivity.
Defined.

(** ** Degenerate windows and cameras *)




Lemma sub_not_finite prec emax x y :
  isfinite x = false -> to_int (SFsub prec emax x y) = None.
Proof.
  destruct x as [s|s| |s m e]; cbn; try discriminate; intros _.
  - destruct y as [sy|sy| |sy my ey]; try reflexivity.
    destruct s, sy; reflexivity.
  - reflexivity.
Qed.

(** X7. When the principal point's row, as a [float], is NaN or an
    infinity, the first row [(int)(center_y - scan_height/2)] has no value:
    the conversion is undefined before any sample is read or any bin
    written, whatever the image, the scan and the window height. *)
Theorem non_finite_center_undefined
    atan2 hypot enc self (depth_msg : Image enc) cam_model scan_msg
    scan_height :
  isfinite (center_y cam_model) = false ->
  convert atan2 hypot enc self depth_msg cam_model scan_msg scan_height
  = (Ub FloatToIntUndefined,
     {| st_ranges := ranges scan_msg; st_log := [] |}).
Proof.
  intros Hc. apply convert_undefined_offset.
  unfold offset_float, F32.sub. apply sub_not_finite. exact Hc.
Qed.

Lemma non_finite_center_undefined_witness :
  convert AnnexF.atan2 AnnexF.hypot TYPE_32FC1 (Examples.converter 1)
    (Examples.column32 [Examples.metres 2 0]) (Examples.camera S754_nan)
    (Examples.scan (dec (-5) 1) (dec 1 1) 1) 1
  = (Ub FloatToIntUndefined, {| st_ranges := [pinf]; st_log := [] |}).
Proof.
  apply (non_finite_center_undefined AnnexF.atan2 AnnexF.hypot TYPE_32FC1
           (Examples.converter 1) (Examples.column32 [Examples.metres 2 0])
           (Examples.camera S754_nan)
           (Examples.scan (dec (-5) 1) (dec 1 1) 1) 1).
  vm_compute. reflexivity.
Defined.

(** ** Windows that leave the image *)

(** X8. On an image whose data are exactly its [height] rows of
    [row_step] samples, a window that is not inside the image (it starts
    above row 0 or ends below the last row) makes the call undefined, no
    run of it being a defined return: the row pointer or a read leaves
    the image data, an [int] overflows or, before that, a bin access is
    undefined. *)
Theorem window_outside_never_completes
    atan2 hypot enc self (depth_msg : Image enc) cam_model scan_msg
    scan_height offset :
  to_int (offset_float cam_model scan_height) = Some offset ->
  0 < row_step enc depth_msg ->
  Z.of_nat (length (data depth_msg))
  = height depth_msg * row_step enc depth_msg ->
  ~ window_in_image enc self depth_msg offset ->
  (convert atan2 hypot enc self depth_msg cam_model scan_msg scan_height).1
  <> Ok tt.
Proof.
  intros Ho Hs Hlen Hout.
  destruct (convert _ _ _ _ _ _ _ _) as [o st'] eqn:Hrun. cbn [fst].
  intros ->.
  apply convert_inv in Hrun as (_ & _ & _ & Hall).
  destruct (Hall eq_refl) as (offset' & Ho' & Hdef & _).
  assert (offset' = offset) as -> by congruence.
  apply Hout. eapply rows_defined_in_image; eassumption.
Qed.

Lemma window_outside_never_completes_witness :
  (convert AnnexF.atan2 AnnexF.hypot TYPE_32FC1 (Examples.converter 2)
     (Examples.column32 [Examples.metres 2 0; Examples.metres 1 0])
     (Examples.camera (dec 25 1)) (Examples.scan (dec (-5) 1) (dec 1 1) 1) 2).1
  <> Ok tt.
Proof.
  apply (window_outside_never_completes AnnexF.atan2 AnnexF.hypot TYPE_32FC1
           (Examples.converter 2)
           (Examples.column32 [Examples.metres 2 0; Examples.metres 1 0])
           (Examples.camera (dec 25 1))
           (Examples.scan (dec (-5) 1) (dec 1 1) 1) 2 1).
  - vm_compute. reflexivity.
  - vm_compute. reflexivity.
  - vm_compute. reflexivity.
  - intros (_ & _ & H). vm_compute in H. apply H. reflexivity.
Defined.

(** X9. A window that starts above the image ([offset < 0], the row
    step being positive) makes line 203 undefined: the product
    [offset*row_step] is not an [int], or the row pointer is moved
    [- offset*row_step] samples before the image data.  No sample has been
    read and no bin written, whatever the image holds. *)
Theorem window_above_image_undefined
    atan2 hypot enc self (depth_msg : Image enc) cam_model scan_msg
    scan_height offset :
  to_int (offset_float cam_model scan_height) = Some offset ->
  offset < 0 ->
  0 < row_step enc depth_msg ->
  convert atan2 hypot enc self depth_msg cam_model scan_msg scan_height
  = (Ub (if INT_MIN <=? offset * row_step enc depth_msg
         then PointerOutOfBounds (offset * row_step enc depth_msg)
         else IntOverflow),
     {| st_ranges := ranges scan_msg; st_log := [] |}).
Proof.
  intros Ho Hneg Hs. rewrite convert_offset, Ho, loop_nest_spec.
  destruct (Z.leb_spec INT_MIN (offset * row_step enc depth_msg)) as [Hge|Hlt].
  - assert ((offset * row_step enc depth_msg <=? INT_MAX) = true) as ->
      by (apply Z.leb_le; unfold INT_MAX; nia).
    assert ((0 <=? offset * row_step enc depth_msg) = false) as ->
      by (apply Z.leb_gt; nia).
    reflexivity.
  - reflexivity.
Qed.

Lemma window_above_image_undefined_witness :
  convert AnnexF.atan2 AnnexF.hypot TYPE_32FC1 (Examples.converter 2)
    (Examples.column32 [Examples.metres 2 0; Examples.metres 1 0])
    (Examples.camera (dec (-15) 1)) (Examples.scan (dec (-5) 1) (dec 1 1) 1) 2
  = (Ub (PointerOutOfBounds (-2)), {| st_ranges := [pinf]; st_log := [] |}).
Proof.
  apply (window_above_image_undefined AnnexF.atan2 AnnexF.hypot TYPE_32FC1
           (Examples.converter 2)
           (Examples.column32 [Examples.metres 2 0; Examples.metres 1 0])
           (Examples.camera (dec (-15) 1))
           (Examples.scan (dec (-5) 1) (dec 1 1) 1) 2 (-2)).
  - vm_compute. reflexivity.
  - lia.
  - vm_compute. reflexivity.
Defined.

(** X13. A window that starts in the image and ends below it reads the
    rows that lie in the image before it leaves the image data: on a
    well-formed image whose data are exactly its rows, every column having
    its bin in the vector, the loop nest processes the rows
    [offset .. height - 1], handing their candidates to the reduction,
    and the read of the first sample of the row [height], just past the
    image data, is undefined. *)
Theorem window_below_image_stops
    atan2 hypot enc self (depth_msg : Image enc) cam_model scan_msg
    scan_height offset :
  to_int (offset_float cam_model scan_height) = Some offset ->
  image_well_formed enc depth_msg ->
  Z.of_nat (length (data depth_msg))
  = height depth_msg * row_step enc depth_msg ->
  bins_in_scan atan2 enc depth_msg cam_model scan_msg ->
  0 < width depth_msg ->
  0 <= offset <= height depth_msg ->
  height depth_msg < offset + scan_height_ self <= INT_MAX ->
  exists st',
    convert atan2 hypot enc self depth_msg cam_model scan_msg scan_height
    = (Ub (DepthOutOfBounds (height depth_msg * row_step enc depth_msg)), st')
    /\ ev_pixel <$> st_log st'
       = (v ← seqZ offset (height depth_msg - offset);
          (λ u, (v, u)) <$> seqZ 0 (width depth_msg))
    /\ st_ranges st'
       = process (range_min scan_msg) (range_max scan_msg)
           (ev_cand <$> st_log st') (ranges scan_msg).
Proof.
  intros Ho Himg Hlen Hbins Hw Hoff Hend.
  pose proof (int_width_well_formed enc depth_msg Himg) as Hiw.
  destruct Himg as (Hwidth & Hdata & _ & Hh & Hn).
  set (k := Z.to_nat (height depth_msg - offset)).
  set (m := Z.to_nat (offset + scan_height_ self - height depth_msg - 1)).
  (* the rows inside the image *)
  destruct (run_total atan2 hypot enc depth_msg cam_model scan_msg
              (v ← seqZ offset (Z.of_nat k);
               (λ u, (v, u)) <$> seqZ 0 (int_width enc depth_msg))
              (initial_state scan_msg)) as [st1 Hrun1].
  { apply Forall_forall. intros [v u] Hin.
    apply list_elem_of_bind in Hin as (v' & Hu & Hv).
    apply elem_of_seqZ in Hv.
    apply list_elem_of_fmap in Hu as (u' & [= -> ->] & Hu).
    apply elem_of_seqZ in Hu. rewrite Hiw in Hu.
    destruct (Hbins u' ltac:(lia)) as (i & Hi & Hb).
    destruct (at_index_is_Some (data depth_msg)
                (v' * row_step enc depth_msg + u')) as [d Hd]; [nia|].
    exists d, i. auto. }
  exists st1. split.
  - rewrite convert_offset, Ho, loop_nest_spec.
    rewrite !in_bounds_true by (unfold INT_MIN, INT_MAX in *; nia).
    replace (Z.to_nat (scan_height_ self)) with (k + S m)%nat by lia.
    rewrite rows_split, Hrun1 by (intros v' Hv'; nia).
    rewrite rows_S, Hiw, (seqZ_cons 0) by exact Hw.
    cbn [fmap list_fmap run fst snd]. unfold mbind at 1, M_bind at 1.
    rewrite pixel_spec.
    replace ((offset + Z.of_nat k) * row_step enc depth_msg + 0)
      with (height depth_msg * row_step enc depth_msg) by nia.
    assert (at_index (data depth_msg)
              (height depth_msg * row_step enc depth_msg) = None) as ->
      by (apply at_index_None; lia).
    reflexivity.
  - apply run_log in Hrun1 as (evs & Hlog & Hrs & _ & _ & Hall).
    cbn [initial_state st_log st_ranges app] in *. subst evs.
    split; [|exact Hrs]. rewrite (Hall eq_refl), Hiw.
    replace (Z.of_nat k) with (height depth_msg - offset) by lia.
    reflexivity.
Qed.

Lemma window_below_image_stops_witness :
  exists st',
    convert AnnexF.atan2 AnnexF.hypot TYPE_32FC1 (Examples.converter 3)
      (Examples.column32 [Examples.metres 2 0; Examples.metres 1 0])
      (Examples.camera (dec 15 1)) (Examples.scan (dec (-5) 1) (dec 1 1) 1) 3
    = (Ub (DepthOutOfBounds (2 * 1)), st')
    /\ ev_pixel <$> st_log st' = [(0, 0); (1, 0)]
    /\ st_ranges st'
       = process (Examples.metres 1 1) (Examples.metres 10 0)
           (ev_cand <$> st_log st') [pinf].
Proof.
  apply (window_below_image_stops AnnexF.atan2 AnnexF.hypot TYPE_32FC1
           (Examples.converter 3)
           (Examples.column32 [Examples.metres 2 0; Examples.metres 1 0])
           (Examples.camera (dec 15 1))
           (Examples.scan (dec (-5) 1) (dec 1 1) 1) 3 0).
  - vm_compute. reflexivity.
  - by_evaluation.
  - vm_compute. reflexivity.
  - intros u Hu. assert (u = 0) as -> by (cbn in Hu; lia).
    exists 0. split; [vm_compute; reflexivity|cbn; lia].
  - cbn. lia.
  - cbn. lia.
  - by_evaluation.
Defined.

(** ** Images that differ in their samples *)

Lemma at_index_same_length {A B} (l1 : list A) (l2 : list B) i :
  length l1 = length l2 ->
  (at_index l1 i = None <-> at_index l2 i = None).
Proof. intros Hl. rewrite !at_index_None, Hl. reflexivity. Qed.

Section TwoImages.
Variables atan2 hypot : double -> double -> double.
Variable enc : encoding.
Variables depth_msg depth_msg' : Image enc.
Variable cam_model : PinholeCameraModel.
Variable scan_msg : LaserScan.
Hypothesis Hlayout : same_layout depth_msg depth_msg'.

Lemma same_layout_row_step : row_step enc depth_msg = row_step enc depth_msg'.
Proof. unfold row_step. destruct Hlayout as (_ & -> & _). reflexivity. Qed.

(** Over the same pixels, from vectors of one length, the runs on the two
    images stop or complete alike and touch the same memory. *)
Lemma run_same_accesses l : forall st st2,
  length (st_ranges st) = length (st_ranges st2) ->
  ev_access <$> st_log st = ev_access <$> st_log st2 ->
  (run atan2 hypot enc depth_msg cam_model scan_msg l st).1
  = (run atan2 hypot enc depth_msg' cam_model scan_msg l st2).1
  /\ ev_access <$>
       st_log (run atan2 hypot enc depth_msg cam_model scan_msg l st).2
     = ev_access <$>
         st_log (run atan2 hypot enc depth_msg' cam_model scan_msg l st2).2.
Proof.
  induction l as [|[v u] l IH]; intros st st2 Hlen Hlog;
    [split; [reflexivity|exact Hlog]|].
  cbn [run fst snd]. unfold mbind, M_bind. rewrite !pixel_spec.
  rewrite <- same_layout_row_step.
  pose proof (at_index_same_length (data depth_msg) (data depth_msg')
                (v * row_step enc depth_msg + u)
                ltac:(apply Hlayout)) as Hd.
  destruct (at_index (data depth_msg) _) as [d|] eqn:Ed,
    (at_index (data depth_msg') _) as [d'|] eqn:Ed';
    try (destruct Hd as [Hd1 Hd2]; first [specialize (Hd1 eq_refl)
                                          |specialize (Hd2 eq_refl)];
         discriminate);
    [|split; [reflexivity|exact Hlog]].
  destruct (to_int (index_float atan2 enc cam_model scan_msg u)) as [i|];
    [|split; [reflexivity|exact Hlog]].
  pose proof (at_index_same_length (st_ranges st) (st_ranges st2) i Hlen)
    as Hr.
  destruct (at_index (st_ranges st) i) as [old|] eqn:Eo,
    (at_index (st_ranges st2) i) as [old2|] eqn:Eo2;
    try (destruct Hr as [Hr1 Hr2]; first [specialize (Hr1 eq_refl)
                                          |specialize (Hr2 eq_refl)];
         discriminate);
    [|split; [reflexivity|exact Hlog]].
  cbv zeta. apply IH; cbn [st_ranges st_log].
  - rewrite !store_length. exact Hlen.
  - rewrite !fmap_app, Hlog. reflexivity.
Qed.

Lemma same_layout_int_width :
  int_width enc depth_msg = int_width enc depth_msg'.
Proof. unfold int_width. destruct Hlayout as (-> & _). reflexivity. Qed.

Lemma same_layout_length :
  length (data depth_msg) = length (data depth_msg').
Proof. apply Hlayout. Qed.

(** The same for the rows of the outer loop. *)
Lemma rows_same_accesses n : forall v st st2,
  length (st_ranges st) = length (st_ranges st2) ->
  ev_access <$> st_log st = ev_access <$> st_log st2 ->
  (rows atan2 hypot enc depth_msg cam_model scan_msg n v
     (v * row_step enc depth_msg) st).1
  = (rows atan2 hypot enc depth_msg' cam_model scan_msg n v
       (v * row_step enc depth_msg') st2).1
  /\ ev_access <$>
       st_log (rows atan2 hypot enc depth_msg cam_model scan_msg n v
                 (v * row_step enc depth_msg) st).2
     = ev_access <$>
         st_log (rows atan2 hypot enc depth_msg' cam_model scan_msg n v
                   (v * row_step enc depth_msg') st2).2.
Proof.
  induction n as [|n IH]; intros v st st2 Hlen Hlog;
    [split; [reflexivity|exact Hlog]|].
  rewrite !rows_S.
  rewrite <- same_layout_int_width, <- same_layout_length.
  set (row := (λ u, (v, u)) <$> seqZ 0 (int_width enc depth_msg)).
  pose proof (run_same_accesses row st st2 Hlen Hlog) as [Ho Hl].
  pose proof (run_length atan2 hypot enc depth_msg cam_model scan_msg row st)
    as Hl1.
  pose proof (run_length atan2 hypot enc depth_msg' cam_model scan_msg row
                st2) as Hl2.
  specialize (IH (v + 1)).
  rewrite <- same_layout_row_step in *.
  destruct (run atan2 hypot enc depth_msg cam_model scan_msg row st)
    as [[[]|f] st1],
    (run atan2 hypot enc depth_msg' cam_model scan_msg row st2)
    as [[[]|f2] st1']; cbn [fst snd] in *; try discriminate.
  - destruct (_ && _); [|split; [reflexivity|exact Hl]].
    apply IH; [congruence|exact Hl].
  - split; [exact Ho|exact Hl].
Qed.

(** And for the loop nest. *)
Lemma loop_nest_same_accesses self offset st st2 :
  length (st_ranges st) = length (st_ranges st2) ->
  ev_access <$> st_log st = ev_access <$> st_log st2 ->
  (loop_nest atan2 hypot enc self depth_msg cam_model scan_msg offset st).1
  = (loop_nest atan2 hypot enc self depth_msg' cam_model scan_msg offset
       st2).1
  /\ ev_access <$>
       st_log (loop_nest atan2 hypot enc self depth_msg cam_model scan_msg
                 offset st).2
     = ev_access <$>
         st_log (loop_nest atan2 hypot enc self depth_msg' cam_model scan_msg
                   offset st2).2.
Proof.
  intros Hlen Hlog. rewrite !loop_nest_spec.
  pose proof (rows_same_accesses (Z.to_nat (scan_height_ self)) offset st st2
                Hlen Hlog) as Hrows.
  rewrite <- same_layout_length. rewrite <- same_layout_row_step in *.
  repeat (destruct (_ && _); [|split; [reflexivity|exact Hlog]]).
  exact Hrows.
Qed.

End TwoImages.

(** X10. Which samples [convert] reads and which bins it accesses does
    not depend on the depth samples: on two images of one layout (as wide,
    with the same step and as many samples), with the same converter,
    camera and scan, the two runs end alike (both complete, or both stop
    on the same undefined operation) and have processed the same pixels,
    each with the same bin.  (Whether the bin is then written depends on
    the sample.) *)
Theorem accesses_independent_of_samples
    atan2 hypot enc self (depth_msg depth_msg' : Image enc) cam_model
    scan_msg scan_height :
  same_layout depth_msg depth_msg' ->
  (convert atan2 hypot enc self depth_msg cam_model scan_msg scan_height).1
  = (convert atan2 hypot enc self depth_msg' cam_model scan_msg
       scan_height).1
  /\ ev_access <$>
       st_log (convert atan2 hypot enc self depth_msg cam_model scan_msg
                 scan_height).2
     = ev_access <$>
         st_log (convert atan2 hypot enc self depth_msg' cam_model scan_msg
                   scan_height).2.
Proof.
  intros Hlayout. rewrite !convert_offset.
  destruct (to_int (offset_float cam_model scan_height)) as [offset|];
    [|split; reflexivity].
  apply loop_nest_same_accesses; [exact Hlayout|reflexivity|reflexivity].
Qed.

Lemma accesses_independent_of_samples_witness :
  (convert AnnexF.atan2 AnnexF.hypot TYPE_32FC1 (Examples.converter 2)
     (Examples.column32 [Examples.metres 2 0; Examples.metres 1 0])
     (Examples.camera (dec 175 2)) (Examples.scan (dec (-5) 1) (dec 1 1) 1)
     2).1
  = (convert AnnexF.atan2 AnnexF.hypot TYPE_32FC1 (Examples.converter 2)
       (Examples.column32 [S754_nan; Examples.metres 50 0])
       (Examples.camera (dec 175 2)) (Examples.scan (dec (-5) 1) (dec 1 1) 1)
       2).1
  /\ ev_access <$>
       st_log
         (convert AnnexF.atan2 AnnexF.hypot TYPE_32FC1 (Examples.converter 2)
            (Examples.column32 [Examples.metres 2 0; Examples.metres 1 0])
            (Examples.camera (dec 175 2))
            (Examples.scan (dec (-5) 1) (dec 1 1) 1) 2).2
     = ev_access <$>
         st_log
           (convert AnnexF.atan2 AnnexF.hypot TYPE_32FC1
              (Examples.converter 2)
              (Examples.column32 [S754_nan; Examples.metres 50 0])
              (Examples.camera (dec 175 2))
              (Examples.scan (dec (-5) 1) (dec 1 1) 1) 2).2.
Proof.
  apply (accesses_independent_of_samples AnnexF.atan2 AnnexF.hypot
           TYPE_32FC1 (Examples.converter 2)
           (Examples.column32 [Examples.metres 2 0; Examples.metres 1 0])
           (Examples.column32 [S754_nan; Examples.metres 50 0])
           (Examples.camera (dec 175 2))
           (Examples.scan (dec (-5) 1) (dec 1 1) 1) 2).
  repeat split; reflexivity.
Defined.

(** ** Converting into a filled scan *)

Section Refill.
Variables range_min range_max : float.

(** Candidates that [use_point] all turns down leave the bin alone. *)
Lemma bin_value_fixed rs : forall old,
  (forall x, x ∈ rs -> use_point x old range_min range_max = false) ->
  bin_value range_min range_max old rs = old.
Proof.
  induction rs as [|r rs IH]; intros old H; [reflexivity|].
  cbn [bin_value foldl]. unfold keep at 2. rewrite (H r) by left.
  apply IH. intros x Hx. apply H. right. exact Hx.
Qed.

(** Offered its candidates once more, a bin keeps its value. *)
Lemma bin_value_idem rs old :
  bin_value range_min range_max (bin_value range_min range_max old rs) rs
  = bin_value range_min range_max old rs.
Proof.
  apply bin_value_fixed. intros x Hx. unfold use_point.
  destruct (in_range x range_min range_max) eqn:Hr; [|reflexivity].
  destruct (bin_value_least range_min range_max rs old x Hx Hr) as [-> ->].
  reflexivity.
Qed.

Lemma at_index_of_nat {A} (l : list A) n : at_index l (Z.of_nat n) = l !! n.
Proof.
  unfold at_index. destruct (Z.leb_spec 0 (Z.of_nat n)); [|lia].
  rewrite Nat2Z.id. reflexivity.
Qed.

Lemma process_idem cs rs :
  process range_min range_max cs (process range_min range_max cs rs)
  = process range_min range_max cs rs.
Proof.
  apply list_eq. intros n. rewrite <- !at_index_of_nat.
  destruct (at_index rs (Z.of_nat n)) as [old|] eqn:Hold.
  - rewrite (process_at range_min range_max cs _ _ _
               (process_at range_min range_max cs _ _ _ Hold)).
    rewrite (process_at range_min range_max cs _ _ _ Hold).
    f_equal. apply bin_value_idem.
  - assert (forall l : list float, length l = length rs ->
              at_index l (Z.of_nat n) = None) as Hnone.
    { intros l Hl. apply at_index_None. apply at_index_None in Hold.
      rewrite Hl. exact Hold. }
    rewrite !Hnone; [reflexivity| |]; rewrite ?process_length; reflexivity.
Qed.

End Refill.

Section SameFrame.
Variables atan2 hypot : double -> double -> double.
Variable enc : encoding.
Variable depth_msg : Image enc.
Variable cam_model : PinholeCameraModel.
Variable scan_msg : LaserScan.

(** The bin and the candidate of a logged pixel are those of its sample:
    logs of the same pixels offer the same candidates. *)
Lemma logs_same_candidates n1 n2 (l1 : list pixel_event) : forall l2,
  ev_pixel <$> l1 = ev_pixel <$> l2 ->
  Forall (event_ok atan2 hypot enc depth_msg cam_model scan_msg n1) l1 ->
  Forall (event_ok atan2 hypot enc depth_msg cam_model scan_msg n2) l2 ->
  ev_cand <$> l1 = ev_cand <$> l2.
Proof.
  induction l1 as [|e1 l1 IH]; intros [|e2 l2] Hp H1 H2;
    try discriminate; [reflexivity|].
  injection Hp as Hv Hu Hp.
  apply Forall_cons in H1 as [(d1 & Hd1 & Hi1 & Hr1 & _) H1].
  apply Forall_cons in H2 as [(d2 & Hd2 & Hi2 & Hr2 & _) H2].
  cbn [fmap list_fmap]. f_equal; [|apply IH; assumption].
  rewrite <- Hv, <- Hu in Hd2. rewrite <- Hu in Hi2, Hr2.
  assert (d2 = d1) as -> by congruence.
  unfold ev_cand. f_equal; congruence.
Qed.

End SameFrame.

(** X11. Converting the same frame twice changes nothing the second
    time: when a run on a scan completes, the run on the scan it has
    filled (same image, camera, converter and window) completes too and
    leaves every bin as the first run left it. *)
Theorem second_pass_changes_nothing
    atan2 hypot enc self (depth_msg : Image enc) cam_model scan_msg
    scan_height st1 :
  convert atan2 hypot enc self depth_msg cam_model scan_msg scan_height
  = (Ok tt, st1) ->
  exists st2,
    convert atan2 hypot enc self depth_msg cam_model
      (set_ranges scan_msg (st_ranges st1)) scan_height = (Ok tt, st2)
    /\ st_ranges st2 = st_ranges st1.
Proof.
  intros Hrun1.
  pose proof Hrun1 as (Hrs1 & Hok1 & _ & Hall1)%convert_inv.
  destruct (Hall1 eq_refl) as (offset & Ho & Hdef & Hpix1).
  pose proof (convert_length _ _ _ _ _ _ _ _ _ _ Hrun1) as Hlen.
  (* the second run completes *)
  destruct (run_total atan2 hypot enc depth_msg cam_model
              (set_ranges scan_msg (st_ranges st1))
              (loop_pixels enc self depth_msg offset)
              (initial_state (set_ranges scan_msg (st_ranges st1))))
    as [st2 Hrun2].
  { apply Forall_forall. intros [v u] Hin. rewrite <- Hpix1 in Hin.
    apply list_elem_of_fmap in Hin as (e & [= -> ->] & He).
    rewrite Forall_forall in Hok1.
    destruct (Hok1 e He) as (d & Hd & Hi & _ & Hb).
    exists d, (ev_index e). cbn [initial_state st_ranges set_ranges ranges].
    rewrite Hlen. auto. }
  assert (convert atan2 hypot enc self depth_msg cam_model
            (set_ranges scan_msg (st_ranges st1)) scan_height
          = (Ok tt, st2)) as Hconv2.
  { rewrite convert_offset, Ho, loop_nest_run by exact Hdef. exact Hrun2. }
  exists st2. split; [exact Hconv2|].
  pose proof Hconv2 as (Hrs2 & Hok2 & _ & Hall2)%convert_inv.
  destruct (Hall2 eq_refl) as (offset2 & Ho2 & _ & Hpix2).
  assert (offset2 = offset) as -> by congruence.
  cbn [set_ranges ranges range_min range_max] in Hrs2.
  rewrite Hrs2.
  rewrite <- (logs_same_candidates atan2 hypot enc depth_msg cam_model scan_msg
                _ _ (st_log st1) (st_log st2)
                ltac:(rewrite Hpix1, Hpix2; reflexivity) Hok1 Hok2).
  rewrite Hrs1 at 1. rewrite process_idem. symmetry. exact Hrs1.
Qed.

Lemma second_pass_changes_nothing_witness :
  exists st2,
    convert AnnexF.atan2 AnnexF.hypot TYPE_32FC1 (Examples.converter 2)
      (Examples.column32 [Examples.metres 2 0; Examples.metres 1 0])
      (Examples.camera (dec 175 2))
      (set_ranges (Examples.scan (dec (-5) 1) (dec 1 1) 1)
         [Examples.metres 1 0]) 2 = (Ok tt, st2)
    /\ st_ranges st2 = [Examples.metres 1 0].
Proof.
  apply (second_pass_changes_nothing AnnexF.atan2 AnnexF.hypot TYPE_32FC1
           (Examples.converter 2)
           (Examples.column32 [Examples.metres 2 0; Examples.metres 1 0])
           (Examples.camera (dec 175 2))
           (Examples.scan (dec (-5) 1) (dec 1 1) 1) 2
           {| st_ranges := [Examples.metres 1 0];
              st_log :=
                [{| ev_v := 0; ev_u := 0; ev_index := 0;
                    ev_r := Examples.metres 2 0; ev_used := true |};
                 {| ev_v := 1; ev_u := 0; ev_index := 0;
                    ev_r := Examples.metres 1 0; ev_used := true |}] |}).
  vm_compute. reflexivity.
Defined.

(** ** Defined behaviour *)

